(** * mikrotik-exporter: the scrape-and-stream pipeline of [mikrotik.py]

    A shallow embedding of the exporter's one source file.  Python values
    that travel through the program (device strings, ints, floats) are a
    small tagged union; dicts are insertion-ordered association lists; the
    asynchronous generator [scrape_mikrotik] is a tree of effects (yield,
    session calls, raise) that a consumer drives; the encoder [wrap] is a
    fold over the samples it receives. *)

From Stdlib Require Import ZArith String Ascii List Bool Lia SpecFloat.
From stdpp Require Import base option list strings gmap pretty.

Local Open Scope string_scope.
Local Open Scope Z_scope.

(** ** Python values *)

Module Py.

(** [float] is IEEE binary64; the Standard Library's [spec_float] gives
    the datatype (sign, 53-bit mantissa, exponent). *)
Definition pyfloat := spec_float.

Inductive value :=
| VStr (s : string)
| VInt (z : Z)
| VFloat (f : pyfloat).

Inductive exn :=
| KeyError (key : value)
| ValueError
| OverflowError
| GeneratorExit
| RuntimeError.

Definition is_KeyError (e : exn) : bool :=
  match e with KeyError _ => true | _ => false end.

Definition is_ValueError (e : exn) : bool :=
  match e with ValueError => true | _ => false end.

(** *** binary64 arithmetic: every operation is the exact rational result
    rounded to nearest, ties to even *)

Definition round_half_even (n d : Z) : Z :=
  let q := n / d in
  let r := n mod d in
  match 2 * r ?= d with
  | Lt => q
  | Gt => q + 1
  | Eq => if Z.even q then q else q + 1
  end.

(** the binary64 number nearest to [p / q], for [0 <= p] and [0 < q] *)
Definition float_of_ratio (neg : bool) (p q : Z) : pyfloat :=
  if p =? 0 then S754_zero neg else
  let l := Z.log2 p - Z.log2 q in
  let above := if 0 <=? l then q * 2 ^ l <=? p else q <=? p * 2 ^ (- l) in
  let fl := if above then l else l - 1 in
  let e := Z.max (fl - 52) (-1074) in
  let m := if 0 <=? e then round_half_even p (q * 2 ^ e)
           else round_half_even (p * 2 ^ (- e)) q in
  let '(m, e) := if m =? 2 ^ 53 then (2 ^ 52, e + 1) else (m, e) in
  if m =? 0 then S754_zero neg
  else if 971 <? e then S754_infinity neg
  else S754_finite neg (Z.to_pos m) e.

(** a finite float as a fraction *)
Definition ratio_of_finite (m : positive) (e : Z) : Z * Z :=
  if 0 <=? e then (Z.pos m * 2 ^ e, 1) else (Z.pos m, 2 ^ (- e)).

(** [float(z)] for an int: [OverflowError] when out of range *)
Definition float_of_int (z : Z) : exn + pyfloat :=
  match float_of_ratio (z <? 0) (Z.abs z) 1 with
  | S754_infinity _ => inl OverflowError
  | f => inr f
  end.

(** [x / 1000.0] *)
Definition float_div_1000 (x : pyfloat) : pyfloat :=
  match x with
  | S754_finite s m e =>
      let '(p, q) := ratio_of_finite m e in float_of_ratio s p (q * 1000)
  | other => other
  end.

(** [int(x)] for a float: truncation towards zero *)
Definition int_of_float (x : pyfloat) : exn + Z :=
  match x with
  | S754_nan => inl ValueError
  | S754_infinity _ => inl OverflowError
  | S754_zero _ => inr 0
  | S754_finite s m e =>
      let '(p, q) := ratio_of_finite m e in
      inr (if s then - (p / q) else p / q)
  end.

(** *** text to number: [int(s)] and [float(s)] for [str] arguments

    Strings are byte strings; the grammar below is the ASCII part of the
    interpreter's (non-ASCII digits and blanks are ordinary characters
    here, and the cap some interpreter versions put on the number of digits
    [int] accepts is left out).  Surrounding whitespace is dropped, one sign
    is allowed, and a single underscore may separate two digits. *)

Definition code (c : ascii) : Z := Z.of_N (N_of_ascii c).

Definition digit_of (c : ascii) : option Z :=
  let n := code c in
  if (48 <=? n) && (n <=? 57) then Some (n - 48) else None.

Definition is_space (c : ascii) : bool :=
  let n := code c in
  ((9 <=? n) && (n <=? 13)) || ((28 <=? n) && (n <=? 32)).

Fixpoint lstrip (s : string) : string :=
  match s with
  | String c r => if is_space c then lstrip r else s
  | EmptyString => EmptyString
  end.

Fixpoint rstrip (s : string) : string :=
  match s with
  | String c r =>
      match rstrip r with
      | EmptyString => if is_space c then EmptyString else String c EmptyString
      | r' => String c r'
      end
  | EmptyString => EmptyString
  end.

Definition strip (s : string) : string := rstrip (lstrip s).

Definition lower_char (c : ascii) : ascii :=
  let n := code c in
  if (65 <=? n) && (n <=? 90) then ascii_of_N (Z.to_N (n + 32)) else c.

Fixpoint lower (s : string) : string :=
  match s with
  | String c r => String (lower_char c) (lower r)
  | EmptyString => EmptyString
  end.

(** an optional sign: [true] for minus *)
Definition read_sign (s : string) : bool * string :=
  match s with
  | String "-" r => (true, r)
  | String "+" r => (false, r)
  | _ => (false, s)
  end.

(** the digits that may follow a digit: [(["_"] digit)*] *)
Fixpoint digitpart_tail (s : string) : list Z * string :=
  match s with
  | String c r =>
      match digit_of c with
      | Some d => let '(ds, r') := digitpart_tail r in (d :: ds, r')
      | None =>
          match c, r with
          | "_"%char, String c2 r2 =>
              match digit_of c2 with
              | Some d => let '(ds, r') := digitpart_tail r2 in (d :: ds, r')
              | None => ([], s)
              end
          | _, _ => ([], s)
          end
      end
  | EmptyString => ([], s)
  end.

(** [digit (["_"] digit)*], or no digits at all when [s] starts otherwise *)
Definition digitpart (s : string) : list Z * string :=
  match s with
  | String c r =>
      match digit_of c with
      | Some d => let '(ds, r') := digitpart_tail r in (d :: ds, r')
      | None => ([], s)
      end
  | EmptyString => ([], s)
  end.

Definition Z_of_digits (ds : list Z) : Z :=
  fold_left (fun acc d => acc * 10 + d) ds 0.

Definition int_of_string (s : string) : exn + Z :=
  let '(neg, r) := read_sign (strip s) in
  match digitpart r with
  | (d :: ds, EmptyString) =>
      let n := Z_of_digits (d :: ds) in inr (if neg then - n else n)
  | _ => inl ValueError
  end.

(** the float nearest to [m * 10 ^ e10] *)
Definition float_of_decimal (neg : bool) (m e10 : Z) : pyfloat :=
  if 0 <=? e10 then float_of_ratio neg (m * 10 ^ e10) 1
  else float_of_ratio neg m (10 ^ (- e10)).

Definition float_of_string (s : string) : exn + pyfloat :=
  let '(neg, r) := read_sign (strip s) in
  let lr := lower r in
  if (lr =? "inf")%string || (lr =? "infinity")%string then inr (S754_infinity neg)
  else if (lr =? "nan")%string then inr S754_nan
  else
    let '(ip, r1) := digitpart r in
    let '(fp, r2) :=
      match r1 with
      | String "." r1' => digitpart r1'
      | _ => ([], r1)
      end in
    match (ip ++ fp)%list with
    | [] => inl ValueError
    | ds =>
        let m := Z_of_digits ds in
        let nfrac := Z.of_nat (length fp) in
        match r2 with
        | EmptyString => inr (float_of_decimal neg m (- nfrac))
        | String c r3 =>
            if (c =? "e")%char || (c =? "E")%char then
              let '(eneg, r4) := read_sign r3 in
              match digitpart r4 with
              | (d :: es, EmptyString) =>
                  let ex := Z_of_digits (d :: es) in
                  inr (float_of_decimal neg m ((if eneg then - ex else ex) - nfrac))
              | _ => inl ValueError
              end
            else inl ValueError
        end
    end.

(** *** [int(x)] and [float(x)] on values *)

Definition py_int (v : value) : exn + Z :=
  match v with
  | VStr s => int_of_string s
  | VInt z => inr z
  | VFloat f => int_of_float f
  end.

Definition py_float (v : value) : exn + pyfloat :=
  match v with
  | VStr s => float_of_string s
  | VInt z => float_of_int z
  | VFloat f => inr f
  end.

(** *** number to text: [str(x)]

    [str] of a float is the shortest decimal that reads back as the same
    float, printed in fixed notation (always with a fractional part) when
    its decimal point falls in [-3 .. 16] and in exponent notation
    otherwise. *)

Definition float_eqb (x y : pyfloat) : bool :=
  match x, y with
  | S754_zero a, S754_zero b => Bool.eqb a b
  | S754_infinity a, S754_infinity b => Bool.eqb a b
  | S754_nan, S754_nan => true
  | S754_finite a m e, S754_finite b m' e' =>
      Bool.eqb a b && (m =? m')%positive && (e =? e')
  | _, _ => false
  end.

(** the least [k'] at or above [k] with [p / q < 10 ^ k'] *)
Fixpoint decpt_from (fuel : nat) (k p q : Z) : Z :=
  match fuel with
  | O => k
  | S fuel' =>
      if (if 0 <=? k then p <? q * 10 ^ k else p * 10 ^ (- k) <? q) then k
      else decpt_from fuel' (k + 1) p q
  end.

(** the [n]-digit decimal next to [p / q] that reads back as [(m, e)], the
    nearer one when both neighbours do; digits are scaled by [10 ^ (k - n)] *)
Definition shortest_at (m : positive) (e p q k n : Z) : option Z :=
  let s := k - n in
  let '(num, den) := if 0 <=? s then (p, q * 10 ^ s) else (p * 10 ^ (- s), q) in
  let lo := num / den in
  let hi := lo + 1 in
  let ok D := float_eqb (float_of_decimal false D s) (S754_finite false m e) in
  match ok lo, ok hi with
  | true, true =>
      Some match 2 * num ?= (2 * lo + 1) * den with
           | Lt => lo
           | Gt => hi
           | Eq => if Z.even lo then lo else hi
           end
  | true, false => Some lo
  | false, true => Some hi
  | false, false => None
  end.

Fixpoint shortest_from (fuel : nat) (m : positive) (e p q k n : Z) : Z * Z :=
  match fuel with
  | O => (if 0 <=? k - n then p / (q * 10 ^ (k - n)) else p * 10 ^ (n - k) / q, n)
  | S fuel' =>
      match shortest_at m e p q k n with
      | Some D => (D, n)
      | None => shortest_from fuel' m e p q k (n + 1)
      end
  end.

Fixpoint rstrip_zeros (s : string) : string :=
  match s with
  | String c r =>
      match rstrip_zeros r with
      | EmptyString => if (c =? "0")%char then EmptyString else String c EmptyString
      | r' => String c r'
      end
  | EmptyString => EmptyString
  end.

Fixpoint zeros (n : nat) : string :=
  match n with O => EmptyString | S n' => String "0" (zeros n') end.

Definition slen (s : string) : Z := Z.of_nat (String.length s).

Definition str_int (z : Z) : string := pretty z.

(** the significant digits [ds] of a positive float with value
    [0.ds * 10 ^ decpt] *)
Definition float_digits (m : positive) (e : Z) : string * Z :=
  let '(p, q) := ratio_of_finite m e in
  let k := decpt_from 640 (-324) p q in
  let '(D, n) := shortest_from 17 m e p q k 1 in
  let ds := str_int D in
  (rstrip_zeros ds, k + (slen ds - n)).

Definition format_exponent (x : Z) : string :=
  let a := str_int (Z.abs x) in
  (if x <? 0 then "-" else "+") ++ (if Z.abs x <? 10 then "0" else EmptyString) ++ a.

Definition format_digits (ds : string) (decpt : Z) : string :=
  if (decpt <=? -4) || (16 <? decpt) then
    match ds with
    | String d EmptyString => String d ("e" ++ format_exponent (decpt - 1))
    | String d r => String d ("." ++ r ++ "e" ++ format_exponent (decpt - 1))
    | EmptyString => EmptyString
    end
  else if decpt <=? 0 then "0." ++ zeros (Z.to_nat (- decpt)) ++ ds
  else if slen ds <=? decpt then ds ++ zeros (Z.to_nat (decpt - slen ds)) ++ ".0"
  else substring 0 (Z.to_nat decpt) ds ++ "."
       ++ substring (Z.to_nat decpt) (String.length ds - Z.to_nat decpt) ds.

Definition str_float (x : pyfloat) : string :=
  match x with
  | S754_nan => "nan"
  | S754_infinity s => if s then "-inf" else "inf"
  | S754_zero s => if s then "-0.0" else "0.0"
  | S754_finite s m e =>
      let '(ds, decpt) := float_digits m e in
      (if s then "-" else EmptyString) ++ format_digits ds decpt
  end.

(** [str(v)], which is what [%s] interpolates *)
Definition str (v : value) : string :=
  match v with
  | VStr s => s
  | VInt z => str_int z
  | VFloat f => str_float f
  end.

End Py.

Import Py.

(** ** Dicts: insertion-ordered, keyed by strings *)

Definition dict (V : Type) := list (string * V).

Fixpoint dict_get {V} (k : string) (d : dict V) : option V :=
  match d with
  | [] => None
  | (k', v) :: r => if String.eqb k k' then Some v else dict_get k r
  end.

(** [d[k] = v]: an existing key keeps its place, a new one goes last *)
Fixpoint dict_set {V} (k : string) (v : V) (d : dict V) : dict V :=
  match d with
  | [] => [(k, v)]
  | (k', v') :: r =>
      if String.eqb k k' then (k, v) :: r else (k', v') :: dict_set k v r
  end.

(** ** Samples and the device session *)

Inductive kind := counter | gauge.

Record sample := Sample {
  name : string;
  tp : kind;
  value : Py.value;
  labels : dict Py.value
}.

(** one reply of the device: [(resp, _, obj)] *)
Definition record := dict Py.value.
Definition reply : Type := string * string * record.
Definition answer := list reply.

(** the device, as far as a scrape sees it: its full answer to a sentence *)
Definition device := list string -> answer.

Record session := Session {
  connected : list (string * Z * string * string);
  unread : list (list string);
  closed : bool
}.

(** ** Asynchronous generators

    A generator body is a tree: it returns, raises, suspends at a [yield]
    (and is resumed either normally or with an exception thrown in at that
    point, which is how [aclose] delivers [GeneratorExit]), or calls the
    session. *)

Inductive gen (A : Type) : Type :=
| Ret (a : A)
| Raise (e : exn)
| Yield (s : sample) (k : option exn -> gen A)
| Connect (mk_ip : string) (mk_port : Z) (mk_user mk_psw : string) (k : gen A)
| Talk (sentence : list string) (k : gen A)
| ReadAnswer (k : answer -> gen A)
| Close (k : gen A).

Arguments Ret {A} a.
Arguments Raise {A} e.
Arguments Yield {A} s k.
Arguments Connect {A} mk_ip mk_port mk_user mk_psw k.
Arguments Talk {A} sentence k.
Arguments ReadAnswer {A} k.
Arguments Close {A} k.

Fixpoint bind {A B} (g : gen A) (f : A -> gen B) : gen B :=
  match g with
  | Ret a => f a
  | Raise e => Raise e
  | Yield s k => Yield s (fun r => bind (k r) f)
  | Connect ip port user psw k => Connect ip port user psw (bind k f)
  | Talk w k => Talk w (bind k f)
  | ReadAnswer k => ReadAnswer (fun a => bind (k a) f)
  | Close k => Close (bind k f)
  end.

#[export] Instance gen_ret : MRet gen := @Ret.
#[export] Instance gen_bind : MBind gen := fun A B f g => bind g f.

(** [try: body / except <catches>: handler] *)
Fixpoint try_except {A} (body : gen A) (catches : exn -> bool) (handler : gen A)
  : gen A :=
  match body with
  | Ret a => Ret a
  | Raise e => if catches e then handler else Raise e
  | Yield s k => Yield s (fun r => try_except (k r) catches handler)
  | Connect ip port user psw k =>
      Connect ip port user psw (try_except k catches handler)
  | Talk w k => Talk w (try_except k catches handler)
  | ReadAnswer k => ReadAnswer (fun a => try_except (k a) catches handler)
  | Close k => Close (try_except k catches handler)
  end.

(** [try: x = body / except <catches>: handler / else: orelse(x)]; the
    [else] suite is outside the handler's protection *)
Fixpoint try_except_else {A B} (body : gen A) (catches : exn -> bool)
    (handler : gen B) (orelse : A -> gen B) : gen B :=
  match body with
  | Ret a => orelse a
  | Raise e => if catches e then handler else Raise e
  | Yield s k => Yield s (fun r => try_except_else (k r) catches handler orelse)
  | Connect ip port user psw k =>
      Connect ip port user psw (try_except_else k catches handler orelse)
  | Talk w k => Talk w (try_except_else k catches handler orelse)
  | ReadAnswer k =>
      ReadAnswer (fun a => try_except_else (k a) catches handler orelse)
  | Close k => Close (try_except_else k catches handler orelse)
  end.

(** [yield name, tp, value, labels]; the sample carries the labels as they
    are at the yield: the consumer renders each sample before it resumes
    the generator, so later updates of the same dict are not seen *)
Definition yield_ (name : string) (tp : kind) (value : Py.value)
    (labels : dict Py.value) : gen unit :=
  Yield (Sample name tp value labels)
        (fun r => match r with None => Ret tt | Some e => Raise e end).

(** a call that may raise *)
Definition lift {A} (r : exn + A) : gen A :=
  match r with inl e => Raise e | inr a => Ret a end.

(** [obj[k]] *)
Definition getitem (obj : record) (k : string) : gen Py.value :=
  match dict_get k obj with
  | Some v => Ret v
  | None => Raise (KeyError (VStr k))
  end.

Definition talk_sentence (w : list string) : gen unit := Talk w (Ret tt).
Definition read_full_answer : gen answer := ReadAnswer Ret.
Definition close : gen unit := Close (Ret tt).
Definition create_rosapi_connection (mk_ip : string) (mk_port : Z)
    (mk_user mk_psw : string) : gen unit :=
  Connect mk_ip mk_port mk_user mk_psw (Ret tt).

(** *** Consumers *)

Inductive outcome (A : Type) :=
| Returned (a : A)      (* StopAsyncIteration *)
| Raised (e : exn)
| Blocked.              (* waiting for an answer that was never asked for *)

Arguments Returned {A} a.
Arguments Raised {A} e.
Arguments Blocked {A}.

(** run the generator up to its end, resuming every [yield] normally *)
Fixpoint drain {A} (dev : device) (g : gen A) (st : session)
  : list sample * outcome A * session :=
  match g with
  | Ret a => ([], Returned a, st)
  | Raise e => ([], Raised e, st)
  | Yield s k =>
      let '(l, o, st') := drain dev (k None) st in (s :: l, o, st')
  | Connect ip port user psw k =>
      drain dev k (Session ((ip, port, user, psw) :: connected st)
                           (unread st) (closed st))
  | Talk w k =>
      drain dev k (Session (connected st) (unread st ++ [w])%list (closed st))
  | ReadAnswer k =>
      match unread st with
      | [] => ([], Blocked, st)
      | w :: ws => drain dev (k (dev w)) (Session (connected st) ws (closed st))
      end
  | Close k => drain dev k (Session (connected st) (unread st) true)
  end.

(** the body after [aclose()] threw [GeneratorExit] in at the [yield]
    where it was suspended: it must finish without yielding again *)
Fixpoint closing {A} (dev : device) (g : gen A) (st : session)
  : outcome A * session :=
  match g with
  | Ret a => (Returned a, st)
  | Raise e => (Raised e, st)
  | Yield s k => (Raised RuntimeError, st)
  | Connect ip port user psw k =>
      closing dev k (Session ((ip, port, user, psw) :: connected st)
                             (unread st) (closed st))
  | Talk w k =>
      closing dev k (Session (connected st) (unread st ++ [w])%list (closed st))
  | ReadAnswer k =>
      match unread st with
      | [] => (Blocked, st)
      | w :: ws => closing dev (k (dev w)) (Session (connected st) ws (closed st))
      end
  | Close k => closing dev k (Session (connected st) (unread st) true)
  end.

(** a consumer that takes [n + 1] samples and then calls [aclose()] *)
Fixpoint pull {A} (dev : device) (n : nat) (g : gen A) (st : session)
  : list sample * outcome A * session :=
  match g with
  | Ret a => ([], Returned a, st)
  | Raise e => ([], Raised e, st)
  | Yield s k =>
      match n with
      | O => let '(o, st') := closing dev (k (Some GeneratorExit)) st in
             ([s], o, st')
      | S n' => let '(l, o, st') := pull dev n' (k None) st in (s :: l, o, st')
      end
  | Connect ip port user psw k =>
      pull dev n k (Session ((ip, port, user, psw) :: connected st)
                            (unread st) (closed st))
  | Talk w k =>
      pull dev n k (Session (connected st) (unread st ++ [w])%list (closed st))
  | ReadAnswer k =>
      match unread st with
      | [] => ([], Blocked, st)
      | w :: ws => pull dev n (k (dev w)) (Session (connected st) ws (closed st))
      end
  | Close k => pull dev n k (Session (connected st) (unread st) true)
  end.

(** ** The exporter *)

(** the process environment, read once at import; startup has already
    refused an empty user, password or target list *)
Record config := Config {
  PREFIX : string;
  PROMETHEUS_BEARER_TOKEN : option string;
  MIKROTIK_USER : string;
  MIKROTIK_PASSWORD : string;
  TARGETS : string
}.

Definition RATE_MAPPING : dict Z :=
  [ ("40Gbps", 40 * 10 ^ 9);
    ("10Gbps", 10 * 10 ^ 9);
    ("1Gbps", 10 ^ 9);
    ("100Mbps", 100 * 10 ^ 6);
    ("10Mbps", 10 * 10 ^ 6) ].

(** the table's entry for a value: only strings are keys *)
Definition known_rate (rate : Py.value) : option Z :=
  match rate with
  | VStr s => dict_get s RATE_MAPPING
  | _ => None
  end.

(** [RATE_MAPPING[rate]] *)
Definition rate_lookup (rate : Py.value) : gen Z :=
  match known_rate rate with
  | Some bps => Ret bps
  | None => Raise (KeyError rate)
  end.

(** *** wrap: the exposition encoder *)

Inductive line :=
| TypeLine (name : string) (tp : kind)
| ValueLine (s : sample).

Definition dquote : string := String (ascii_of_nat 34) EmptyString.

Definition str_kind (tp : kind) : string :=
  match tp with counter => "counter" | gauge => "gauge" end.

Definition label_block (labels : dict Py.value) : string :=
  match labels with
  | [] => EmptyString
  | _ => "{" ++ String.concat ","
                  (map (fun j => fst j ++ "=" ++ dquote ++ str (snd j) ++ dquote) labels)
             ++ "}"
  end.

Definition render (cfg : config) (l : line) : string :=
  match l with
  | TypeLine name tp => "# TYPE " ++ (PREFIX cfg ++ name) ++ " " ++ str_kind tp
  | ValueLine s =>
      (PREFIX cfg ++ name s) ++ label_block (labels s) ++ " " ++ str (value s)
  end.

Fixpoint wrap_from (metrics_seen : gset string) (i : list sample) : list line :=
  match i with
  | [] => []
  | s :: rest =>
      if decide (name s ∈ metrics_seen) then
        ValueLine s :: wrap_from metrics_seen rest
      else
        TypeLine (name s) (tp s) :: ValueLine s
          :: wrap_from ({[name s]} ∪ metrics_seen) rest
  end.

(** the lines [wrap] yields for the samples it has received so far, before
    they are formatted *)
Definition wrap_lines (i : list sample) : list line := wrap_from ∅ i.

Definition wrap (cfg : config) (i : list sample) : list string :=
  map (render cfg) (wrap_lines i).

(** *** scrape_mikrotik: the sample source *)

(** [for resp, _, obj in res: if resp in ("!trap", "!done"): break; body] *)
Definition is_marker (resp : string) : bool :=
  (resp =? "!trap")%string || (resp =? "!done")%string.

Fixpoint for_records (res : answer) (body : record -> gen unit) : gen unit :=
  match res with
  | [] => Ret tt
  | (resp, _, obj) :: rest =>
      if is_marker resp then Ret tt
      else body obj;; for_records rest body
  end.

Definition ports : string :=
  String.concat "," (map (fun j => str_int (Z.of_nat j)) (seq 0 24)).

Definition interface_record (target : string) (obj : record) : gen unit :=
  port ← getitem obj "name";
  type ← getitem obj "type";
  let labels := [("host", VStr target); ("port", port); ("type", type)] in
  v ← getitem obj "rx-byte"; yield_ "interface-rx-bytes" counter v labels;;
  v ← getitem obj "tx-byte"; yield_ "interface-tx-bytes" counter v labels;;
  v ← getitem obj "rx-packet"; yield_ "interface-rx-packets" counter v labels;;
  v ← getitem obj "tx-packet"; yield_ "interface-tx-packets" counter v labels;;
  try_except
    (v ← getitem obj "rx-error"; yield_ "interface-rx-errors" counter v labels;;
     v ← getitem obj "tx-error"; yield_ "interface-tx-errors" counter v labels)
    is_KeyError (Ret tt);;
  try_except
    (v ← getitem obj "rx-drop"; yield_ "interface-rx-drops" counter v labels;;
     v ← getitem obj "tx-drop"; yield_ "interface-tx-drops" counter v labels)
    is_KeyError (Ret tt);;
  v ← getitem obj "tx-byte"; n ← lift (py_int v);
  yield_ "interface-running" gauge (VInt n) labels;;
  v ← getitem obj "actual-mtu"; yield_ "interface-actual-mtu" gauge v labels.

Definition monitor_record (target : string) (obj : record) : gen unit :=
  port ← getitem obj "name";
  let labels := [("host", VStr target); ("port", port)] in
  try_except_else (getitem obj "rate") is_KeyError (Ret tt)
    (fun rate => bps ← rate_lookup rate;
                 yield_ "interface-rate" gauge (VInt bps) labels);;
  labels ← try_except
             (v ← getitem obj "sfp-vendor-name";
              mret (dict_set "sfp-vendor-name" v labels))
             is_KeyError (mret labels);
  labels ← try_except
             (v ← getitem obj "sfp-vendor-part-number";
              mret (dict_set "sfp-vendor-part-number" v labels))
             is_KeyError (mret labels);
  try_except
    (v ← getitem obj "sfp-temperature";
     yield_ "interface-sfp-temperature" gauge v labels;;
     v ← getitem obj "sfp-tx-power";
     yield_ "interface-sfp-tx-power" gauge v labels;;
     v ← getitem obj "sfp-tx-power";
     yield_ "interface-sfp-rx-power" gauge v labels)
    is_KeyError (Ret tt);;
  status ← getitem obj "status";
  let labels := dict_set "status" status labels in
  labels ← try_except
             (v ← getitem obj "sfp-module-present"; n ← lift (py_int v);
              mret (dict_set "sfp-module-present" (VInt n) labels))
             is_KeyError (mret labels);
  yield_ "interface-status" gauge (VInt 1) labels.

Definition poe_record (target : string) (obj : record) : gen unit :=
  port ← getitem obj "name";
  let labels := [("host", VStr target); ("port", port)] in
  try_except
    (v ← getitem obj "poe-out-voltage"; x ← lift (py_float v);
     yield_ "poe-out-voltage" gauge (VFloat x) labels;;
     v ← getitem obj "poe-out-current"; n ← lift (py_int v);
     x ← lift (float_of_int n);
     yield_ "poe-out-current" gauge (VFloat (float_div_1000 x)) labels)
    is_KeyError (Ret tt);;
  status ← getitem obj "poe-out-status";
  yield_ "poe-out-status" gauge (VInt 1) (dict_set "status" status labels).

(** [for key in keys: labels[key] = obj[key]] *)
Fixpoint copy_keys (keys : list string) (obj : record) (labels : dict Py.value)
  : gen (dict Py.value) :=
  match keys with
  | [] => mret labels
  | key :: rest => v ← getitem obj key; copy_keys rest obj (dict_set key v labels)
  end.

Definition resource_record (target : string) (obj : record) : gen unit :=
  let labels := [("host", VStr target)] in
  v ← getitem obj "write-sect-total";
  yield_ "system-write-sect-total" counter v labels;;
  v ← getitem obj "free-memory"; yield_ "system-free-memory" gauge v labels;;
  try_except
    (v ← getitem obj "bad-blocks"; yield_ "system-bad-blocks" counter v labels)
    is_KeyError (Ret tt);;
  labels ← copy_keys ["version"; "cpu"; "cpu-count"; "board-name";
                      "architecture-name"] obj labels;
  yield_ "system-version" gauge (VInt 1) labels.

(** [for key, value in obj.items(): ...] *)
Fixpoint health_items (target : string) (items : list (string * Py.value))
  : gen unit :=
  match items with
  | [] => Ret tt
  | (key, value) :: rest =>
      let labels := [("host", VStr target)] in
      try_except_else (lift (py_float value)) is_ValueError
        (yield_ ("system-health-" ++ key) gauge (VInt 1)
                (dict_set "state" value labels))
        (fun x => yield_ ("system-health-" ++ key) gauge (VFloat x) labels);;
      health_items target rest
  end.

Definition health_record (target : string) (obj : record) : gen unit :=
  health_items target obj.

Definition scrape_mikrotik (cfg : config) (target : string) : gen unit :=
  create_rosapi_connection target 8728 (MIKROTIK_USER cfg) (MIKROTIK_PASSWORD cfg);;
  talk_sentence ["/interface/print"];;
  res ← read_full_answer;
  for_records res (interface_record target);;
  talk_sentence ["/interface/ethernet/monitor"; "=once="; "=numbers=" ++ ports];;
  res ← read_full_answer;
  for_records res (monitor_record target);;
  talk_sentence ["/interface/ethernet/poe/monitor"; "=once="; "=numbers=" ++ ports];;
  res ← read_full_answer;
  for_records res (poe_record target);;
  talk_sentence ["/system/resource/print"];;
  res ← read_full_answer;
  for_records res (resource_record target);;
  talk_sentence ["/system/health/print"];;
  res ← read_full_answer;
  for_records res (health_record target);;
  close.

(** *** view_export: the request handler *)

Fixpoint split_on (sep : ascii) (s : string) : list string :=
  match s with
  | EmptyString => [EmptyString]
  | String c r =>
      if (c =? sep)%char then EmptyString :: split_on sep r
      else match split_on sep r with
           | h :: t => String c h :: t
           | [] => [String c EmptyString]
           end
  end.

(** truth value of an optional string: [None] and the empty string are false *)
Definition truthy (o : option string) : bool :=
  match o with
  | Some s => negb (s =? EmptyString)%string
  | None => false
  end.

(** [request.token != PROMETHEUS_BEARER_TOKEN] *)
Definition token_differs (token configured : option string) : bool :=
  match token, configured with
  | Some a, Some b => negb (a =? b)%string
  | None, None => false
  | _, _ => true
  end.

(** what the handler hands back to the server: the [Forbidden] exception, or
    a streamed response whose [streaming_fn] will run one sample source per
    target *)
Inductive response :=
| Forbidden (message : string)
| Stream (content_type : string) (sources : list (gen unit)).

Definition view_export (cfg : config) (token : option string) : response :=
  if truthy (PROMETHEUS_BEARER_TOKEN cfg)
     && token_differs token (PROMETHEUS_BEARER_TOKEN cfg)
  then Forbidden "Invalid bearer token"
  else Stream "text/plain"
         (map (scrape_mikrotik cfg) (split_on "," (TARGETS cfg))).

(** what [streaming_fn] writes for the samples the merged stream delivers,
    in their order of arrival *)
Definition newline : string := String (ascii_of_nat 10) EmptyString.

Definition streaming_fn (cfg : config) (merged : list sample) : list string :=
  map (fun line => line ++ newline) (wrap cfg merged).

(** ** Observations used in the statements below *)

(** the metric name a line is about *)
Definition line_name (l : line) : string :=
  match l with
  | TypeLine n _ => n
  | ValueLine s => name s
  end.

(** [l] is the type declaration of [n] *)
Definition declares (n : string) (l : line) : bool :=
  match l with
  | TypeLine n' _ => (n' =? n)%string
  | ValueLine _ => false
  end.

Definition count_decls (n : string) (ls : list line) : nat :=
  length (List.filter (declares n) ls).


(** a body that never touches the session *)
Fixpoint session_free {A} (g : gen A) : Prop :=
  match g with
  | Ret _ | Raise _ => True
  | Yield _ k => ∀ r, session_free (k r)
  | _ => False
  end.

(** what a [try] block around two consecutive yields lets through: the
    first sample if its field is there, the second only after the first *)
Definition pair_group (obj : record) (k1 n1 k2 n2 : string)
    (labels : dict Py.value) : list sample :=
  match dict_get k1 obj with
  | None => []
  | Some a =>
      Sample n1 counter a labels
        :: match dict_get k2 obj with
           | None => []
           | Some b => [Sample n2 counter b labels]
           end
  end.

(** a body in which [close] is only ever the last thing done before
    returning *)
Fixpoint close_last {A} (g : gen A) : Prop :=
  match g with
  | Ret _ | Raise _ => True
  | Yield _ k => ∀ r, close_last (k r)
  | Connect _ _ _ _ k | Talk _ k => close_last k
  | ReadAnswer k => ∀ a, close_last (k a)
  | Close k => ∃ a, k = Ret a
  end.

(** a body that cannot return without having called [close] *)
Fixpoint returns_closed {A} (g : gen A) : Prop :=
  match g with
  | Ret _ => False
  | Raise _ | Close _ => True
  | Yield _ k => ∀ r, returns_closed (k r)
  | Connect _ _ _ _ k | Talk _ k => returns_closed k
  | ReadAnswer k => ∀ a, returns_closed (k a)
  end.

(** an integer literal: an optional minus sign, then digits and nothing else *)
Definition is_digit (c : ascii) : bool :=
  match digit_of c with Some _ => true | None => false end.

Fixpoint all_digits (s : string) : bool :=
  match s with
  | EmptyString => true
  | String c r => is_digit c && all_digits r
  end.

Definition is_int_literal (s : string) : bool :=
  let body := match s with
              | String c r => if (c =? "-")%char then r else s
              | EmptyString => s
              end in
  negb (body =? EmptyString)%string && all_digits body.

(** ** Scenarios *)

(** the interface record of the specification's scenario *)
Definition ether1 : record :=
  [ ("name", VStr "ether1"); ("type", VStr "ether");
    ("rx-byte", VInt 100); ("tx-byte", VInt 200);
    ("rx-packet", VInt 1); ("tx-packet", VInt 2);
    ("actual-mtu", VInt 1500) ].

Definition ether1_labels (target : string) : dict Py.value :=
  [("host", VStr target); ("port", VStr "ether1"); ("type", VStr "ether")].

Definition ether1_samples (target : string) : list sample :=
  [ Sample "interface-rx-bytes" counter (VInt 100) (ether1_labels target);
    Sample "interface-tx-bytes" counter (VInt 200) (ether1_labels target);
    Sample "interface-rx-packets" counter (VInt 1) (ether1_labels target);
    Sample "interface-tx-packets" counter (VInt 2) (ether1_labels target);
    Sample "interface-running" gauge (VInt 200) (ether1_labels target);
    Sample "interface-actual-mtu" gauge (VInt 1500) (ether1_labels target) ].

Definition done_ : reply := ("!done", EmptyString, []).
Definition re_ (obj : record) : reply := ("!re", EmptyString, obj).

(** a device with the given records in each of its five tables *)
Definition device_with (interfaces monitor poe resource health : list record)
  : device :=
  fun sentence =>
    match sentence with
    | cmd :: _ =>
        let rows :=
          if (cmd =? "/interface/print")%string then interfaces
          else if (cmd =? "/interface/ethernet/monitor")%string then monitor
          else if (cmd =? "/interface/ethernet/poe/monitor")%string then poe
          else if (cmd =? "/system/resource/print")%string then resource
          else if (cmd =? "/system/health/print")%string then health
          else [] in
        (map re_ rows ++ [done_])%list
    | [] => [done_]
    end.

Definition fresh : session := Session [] [] false.

(** a transceiver port whose receive power differs from its transmit power *)
Definition sfp1 : record :=
  [ ("name", VStr "sfp1"); ("status", VStr "link-ok");
    ("sfp-temperature", VStr "41");
    ("sfp-tx-power", VStr "-2.5"); ("sfp-rx-power", VStr "-7.1") ].

(** a port that reports a rate the table does not have *)
Definition odd_rate_port : record :=
  [ ("name", VStr "ether1"); ("status", VStr "link-ok"); ("rate", VStr "7Gbps") ].

Definition gigabit_port : record :=
  [ ("name", VStr "ether1"); ("status", VStr "link-ok"); ("rate", VStr "1Gbps") ].


(** the scenario's interface with a transmit-error count and no
    receive-error count *)
Definition tx_error_only : record :=
  [ ("name", VStr "ether1"); ("type", VStr "ether");
    ("rx-byte", VInt 100); ("tx-byte", VInt 200);
    ("rx-packet", VInt 1); ("tx-packet", VInt 2);
    ("tx-error", VInt 7); ("actual-mtu", VInt 1500) ].

(** a powered port that reports its voltage and no current *)
Definition voltage_only_port : record :=
  [ ("name", VStr "ether1"); ("poe-out-status", VStr "powered-on");
    ("poe-out-voltage", VStr "24.1") ].

(** [str(float(s))], for checking the value model on known texts *)
Definition float_text (s : string) : option string :=
  match float_of_string s with
  | inr x => Some (str_float x)
  | inl _ => None
  end.

(** ** Further observations *)

(** the samples behind the value lines of an output, in order *)
Definition value_lines (ls : list line) : list sample :=
  omap (λ l, match l with ValueLine s => Some s | TypeLine _ _ => None end) ls.

(** every sample a body can yield satisfies [P], and every value it can
    return satisfies [Q], whatever the device answers and however the
    consumer resumes it *)
Fixpoint yields_ok {A} (P : sample → Prop) (Q : A → Prop) (g : gen A) : Prop :=
  match g with
  | Ret a => Q a
  | Raise _ => True
  | Yield s k => P s ∧ ∀ r, yields_ok P Q (k r)
  | Connect _ _ _ _ k | Talk _ k | Close k => yields_ok P Q k
  | ReadAnswer k => ∀ a, yields_ok P Q (k a)
  end.

(** the names the source yields as counters; every other name is a gauge *)
Definition counter_names : list string :=
  [ "interface-rx-bytes"; "interface-tx-bytes";
    "interface-rx-packets"; "interface-tx-packets";
    "interface-rx-errors"; "interface-tx-errors";
    "interface-rx-drops"; "interface-tx-drops";
    "system-write-sect-total"; "system-bad-blocks" ].

Definition kind_of_name (n : string) : kind :=
  if existsb (String.eqb n) counter_names then counter else gauge.

(** a label dict as the source builds them: [host] first, no key twice *)
Definition good_labels (target : string) (l : dict Py.value) : Prop :=
  NoDup (map fst l) ∧ ∃ rest, l = ("host", VStr target) :: rest.

Definition good_sample (target : string) (s : sample) : Prop :=
  tp s = kind_of_name (name s) ∧ good_labels target (labels s).

Definition no_marker (pre : answer) : Prop :=
  Forall (λ r : reply, is_marker r.1.1 = false) pre.
(** a sample that some run of the sample source yields, for some target
    against some device *)
Definition produced (s : sample) : Prop :=
  ∃ cfg dev target st, s ∈ (drain dev (scrape_mikrotik cfg target) st).1.1.

(** the fields an interface record must have *)
Definition interface_fields : list string :=
  ["name"; "type"; "rx-byte"; "tx-byte"; "rx-packet"; "tx-packet"; "actual-mtu"].

(** the sample one health reading becomes when its value is text *)
Definition health_sample (target : string) (reading : string * Py.value) : sample :=
  match py_float reading.2 with
  | inr x =>
      Sample ("system-health-" ++ reading.1) gauge (VFloat x) [("host", VStr target)]
  | inl _ =>
      Sample ("system-health-" ++ reading.1) gauge (VInt 1)
             [("host", VStr target); ("state", reading.2)]
  end.

Definition is_text (v : Py.value) : Prop := ∃ s, v = VStr s.

(** a resource record with every field the source reads *)
Definition hex_resources : record :=
  [ ("write-sect-total", VStr "5120"); ("free-memory", VStr "1000");
    ("bad-blocks", VStr "0"); ("version", VStr "6.49"); ("cpu", VStr "MIPS");
    ("cpu-count", VStr "1"); ("board-name", VStr "hEX");
    ("architecture-name", VStr "mmips") ].

(** a powered port that reports voltage and current *)
Definition powered_port : record :=
  [ ("name", VStr "ether5"); ("poe-out-status", VStr "powered-on");
    ("poe-out-voltage", VStr "24.1"); ("poe-out-current", VStr "1500") ].

(** a port whose voltage is a word *)
Definition voltage_word_port : record :=
  [ ("name", VStr "ether5"); ("poe-out-status", VStr "powered-on");
    ("poe-out-voltage", VStr "n/a") ].

(** the five queries of a run with the loop body that reads each answer *)
Definition batteries (target : string)
  : list (list string * (record → gen unit)) :=
  [ (["/interface/print"], interface_record target);
    (["/interface/ethernet/monitor"; "=once="; "=numbers=" ++ ports],
     monitor_record target);
    (["/interface/ethernet/poe/monitor"; "=once="; "=numbers=" ++ ports],
     poe_record target);
    (["/system/resource/print"], resource_record target);
    (["/system/health/print"], health_record target) ].

(** the record loops over the device's answers to the given queries, one
    after the other, up to the first that does not return *)
Fixpoint run_batteries (dev : device)
    (bs : list (list string * (record → gen unit))) : list sample * outcome unit :=
  match bs with
  | [] => ([], Returned tt)
  | (w, body) :: rest =>
      match (drain dev (for_records (dev w) body) fresh).1 with
      | (l, Returned _) =>
          let '(l', o) := run_batteries dev rest in ((l ++ l')%list, o)
      | (l, o) => (l, o)
      end
  end.

Definition is_returned {A} (o : outcome A) : bool :=
  match o with Returned _ => true | _ => false end.

(** *** Start of the process: lines 9 to 20 *)

(** [os.getenv(k, default)] *)
Definition getenv (environ : dict string) (k : string) (default : option string)
  : option string :=
  match dict_get k environ with
  | Some v => Some v
  | None => default
  end.

(** the module's top level: the configuration, or the message of the
    [ValueError] that stops the process *)
Definition startup (environ : dict string) : string + config :=
  let prefix := getenv environ "PROMETHEUS_PREFIX" (Some "mikrotik_") in
  let token := getenv environ "PROMETHEUS_BEARER_TOKEN" None in
  let user := getenv environ "MIKROTIK_USER" None in
  let password := getenv environ "MIKROTIK_PASSWORD" None in
  let targets := getenv environ "TARGETS" None in
  if negb (truthy user) then inl "MIKROTIK_USER not specified"
  else if negb (truthy password) then inl "MIKROTIK_PASSWORD not specified"
  else if negb (truthy targets) then inl "TARGETS not specified"
  else inr (Config (default EmptyString prefix) token
                   (default EmptyString user) (default EmptyString password)
                   (default EmptyString targets)).

Fixpoint contains_char (c : ascii) (s : string) : bool :=
  match s with
  | EmptyString => false
  | String c' r => (c' =? c)%char || contains_char c r
  end.

Fixpoint count_char (c : ascii) (s : string) : nat :=
  match s with
  | EmptyString => O
  | String c' r => ((if (c' =? c)%char then 1 else 0) + count_char c r)%nat
  end.

(** a transceiver port with a vendor name, no part number, and a numeric
    module-presence field *)
Definition vendor_port : record :=
  [ ("name", VStr "sfp1"); ("status", VStr "link-ok");
    ("sfp-vendor-name", VStr "Acme"); ("sfp-module-present", VStr "1") ].

(** ** Observations on optional fields *)

(** [obj'] is the record [obj] without its field [k] *)
Definition without_field (k : string) (obj obj' : record) : Prop :=
  dict_get k obj' = None ∧ ∀ k', k' ≠ k → dict_get k' obj' = dict_get k' obj.

(** what the samples of a record lose when a field is missing: the samples
    of some names, or one label on every sample that carries it *)
Inductive loss :=
| LoseSamples (names : list string)
| LoseLabel (key : string).

Definition del_label (key : string) (labels : dict Py.value) : dict Py.value :=
  List.filter (λ j, negb (String.eqb j.1 key)) labels.

Definition lose (what : loss) (l : list sample) : list sample :=
  match what with
  | LoseSamples names =>
      List.filter (λ s, negb (existsb (String.eqb (name s)) names)) l
  | LoseLabel key =>
      map (λ s, Sample (name s) (tp s) (value s) (del_label key (labels s))) l
  end.

(** the optional fields of each battery, with what is lost without them:
    the field's own sample and those that follow it in its [try] block, or
    the field's label *)
Definition interface_optional : list (string * loss) :=
  [ ("rx-error", LoseSamples ["interface-rx-errors"; "interface-tx-errors"]);
    ("tx-error", LoseSamples ["interface-tx-errors"]);
    ("rx-drop", LoseSamples ["interface-rx-drops"; "interface-tx-drops"]);
    ("tx-drop", LoseSamples ["interface-tx-drops"]) ].

Definition monitor_optional : list (string * loss) :=
  [ ("rate", LoseSamples ["interface-rate"]);
    ("sfp-vendor-name", LoseLabel "sfp-vendor-name");
    ("sfp-vendor-part-number", LoseLabel "sfp-vendor-part-number");
    ("sfp-temperature",
     LoseSamples ["interface-sfp-temperature"; "interface-sfp-tx-power";
                  "interface-sfp-rx-power"]);
    ("sfp-tx-power",
     LoseSamples ["interface-sfp-tx-power"; "interface-sfp-rx-power"]);
    ("sfp-module-present", LoseLabel "sfp-module-present") ].

Definition poe_optional : list (string * loss) :=
  [ ("poe-out-voltage", LoseSamples ["poe-out-voltage"; "poe-out-current"]);
    ("poe-out-current", LoseSamples ["poe-out-current"]) ].

Definition resource_optional : list (string * loss) :=
  [ ("bad-blocks", LoseSamples ["system-bad-blocks"]) ].

(** the scenario's interface with both error counts *)
Definition both_errors : record :=
  [ ("name", VStr "ether1"); ("type", VStr "ether");
    ("rx-byte", VInt 100); ("tx-byte", VInt 200);
    ("rx-packet", VInt 1); ("tx-packet", VInt 2);
    ("rx-error", VInt 3); ("tx-error", VInt 7); ("actual-mtu", VInt 1500) ].

(** a transceiver port with its vendor's name and part number *)
Definition branded_port : record :=
  [ ("name", VStr "sfp1"); ("status", VStr "link-ok");
    ("sfp-vendor-name", VStr "Acme"); ("sfp-vendor-part-number", VStr "X-10");
    ("sfp-temperature", VStr "41") ].

Definition unbranded_port : record :=
  [ ("name", VStr "sfp1"); ("status", VStr "link-ok");
    ("sfp-vendor-part-number", VStr "X-10"); ("sfp-temperature", VStr "41") ].

(** ** Observations on values *)

(** how the source makes the value it yields under a metric name *)
Inductive making :=
| Constant                  (* the literal 1 *)
| IntOf (field : string)    (* int(obj[field]) *)
| RateOf (field : string)   (* RATE_MAPPING[obj[field]] *)
| FloatOf (field : string)  (* float(obj[field]) *)
| MilliOf (field : string)  (* int(obj[field]) / 1000.0 *)
| Reading                   (* a health reading: float(value), or 1 *)
| Field (field : string)    (* obj[field], as it came *)
| AField.                   (* a field of the record, as it came *)

Definition makings : dict making :=
  [ ("interface-rx-bytes", Field "rx-byte");
    ("interface-tx-bytes", Field "tx-byte");
    ("interface-rx-packets", Field "rx-packet");
    ("interface-tx-packets", Field "tx-packet");
    ("interface-rx-errors", Field "rx-error");
    ("interface-tx-errors", Field "tx-error");
    ("interface-rx-drops", Field "rx-drop");
    ("interface-tx-drops", Field "tx-drop");
    ("interface-running", IntOf "tx-byte");
    ("interface-actual-mtu", Field "actual-mtu");
    ("interface-rate", RateOf "rate");
    ("interface-sfp-temperature", Field "sfp-temperature");
    ("interface-sfp-tx-power", Field "sfp-tx-power");
    ("interface-status", Constant);
    ("poe-out-voltage", FloatOf "poe-out-voltage");
    ("poe-out-current", MilliOf "poe-out-current");
    ("poe-out-status", Constant);
    ("system-write-sect-total", Field "write-sect-total");
    ("system-free-memory", Field "free-memory");
    ("system-bad-blocks", Field "bad-blocks");
    ("system-version", Constant) ].

(** [s] begins with [p] *)
Fixpoint starts_with (p s : string) : bool :=
  match p, s with
  | EmptyString, _ => true
  | String a p', String b s' => (a =? b)%char && starts_with p' s'
  | String _ _, EmptyString => false
  end.

Definition made (n : string) : making :=
  match dict_get n makings with
  | Some m => m
  | None => if starts_with "system-health-" n then Reading else AField
  end.

(** the value of the sample [s] is made from the record [obj] in the way
    its name says *)
Definition value_from (obj : record) (s : sample) : Prop :=
  match made (name s) with
  | Constant => value s = VInt 1
  | IntOf field =>
      ∃ raw z, dict_get field obj = Some raw ∧ py_int raw = inr z
               ∧ value s = VInt z
  | RateOf field =>
      ∃ raw bps, dict_get field obj = Some raw ∧ known_rate raw = Some bps
                 ∧ value s = VInt bps
  | FloatOf field =>
      ∃ raw x, dict_get field obj = Some raw ∧ py_float raw = inr x
               ∧ value s = VFloat x
  | MilliOf field =>
      ∃ raw n y, dict_get field obj = Some raw ∧ py_int raw = inr n
                 ∧ float_of_int n = inr y ∧ value s = VFloat (float_div_1000 y)
  | Reading =>
      ∃ key raw, (key, raw) ∈ obj ∧ name s = "system-health-" ++ key ∧
        match py_float raw with
        | inr x => value s = VFloat x
        | inl _ => value s = VInt 1 ∧ dict_get "state" (labels s) = Some raw
        end
  | Field field => dict_get field obj = Some (value s)
  | AField => ∃ field, dict_get field obj = Some (value s)
  end.

(** every sample a body can yield against the device [dev] satisfies [P],
    however the consumer resumes it *)
Fixpoint yields_on {A} (dev : device) (P : sample → Prop) (g : gen A) : Prop :=
  match g with
  | Ret _ | Raise _ => True
  | Yield s k => P s ∧ ∀ r, yields_on dev P (k r)
  | Connect _ _ _ _ k | Talk _ k | Close k => yields_on dev P k
  | ReadAnswer k => ∀ w, yields_on dev P (k (dev w))
  end.

(** the sample is made from one of the records the device answers with *)
Definition made_from_device (dev : device) (s : sample) : Prop :=
  ∃ w r, r ∈ dev w ∧ value_from r.2 s.

(** a device that reports one health reading, the text "40" *)
Definition warm_device : device :=
  device_with [] [] [] [] [[("temperature", VStr "40")]].
(** * Properties *)

(** ** The value model on known texts *)

Example float_text_24_1 : float_text "24.1" = Some "24.1".
Proof. vm_compute. reflexivity. Qed.

Example float_text_tenth : float_text " +0.1 " = Some "0.1".
Proof. vm_compute. reflexivity. Qed.

Example float_text_1e16 : float_text "10000000000000000" = Some "1e+16".
Proof. vm_compute. reflexivity. Qed.

Example float_text_rounds : float_text "123456789012345678" = Some "1.2345678901234568e+17".
Proof. vm_compute. reflexivity. Qed.

Example float_text_small : float_text "0.00001" = Some "1e-05".
Proof. vm_compute. reflexivity. Qed.

Example float_text_underscore : float_text "1_000.5" = Some "1000.5".
Proof. vm_compute. reflexivity. Qed.

Example float_text_word : float_text "ok" = None.
Proof. reflexivity. Qed.

Example milliamps_1500 :
  str_float (float_div_1000 (S754_finite false 6597069766656000 (-42))) = "1.5".
Proof. vm_compute. reflexivity. Qed.

Example int_of_string_spaces : int_of_string " -1_000 " = inr (-1000).
Proof. reflexivity. Qed.

Example int_of_string_fraction : int_of_string "12.0" = inl ValueError.
Proof. reflexivity. Qed.

(** the specification's health scenario: a numeric reading becomes a gauge
    with that value, any other reading a gauge of 1 with a [state] label *)
Example health_scenario dev st :
  drain dev (health_record "r1" [("voltage", VStr "24.1"); ("fan-status", VStr "ok")]) st
    = ([ Sample "system-health-voltage" gauge
           (VFloat (S754_finite false 6783546938726810 (-48))) [("host", VStr "r1")];
         Sample "system-health-fan-status" gauge (VInt 1)
           [("host", VStr "r1"); ("state", VStr "ok")] ],
       Returned tt, st)
  ∧ str (VFloat (S754_finite false 6783546938726810 (-48))) = "24.1".
Proof. split; vm_compute; reflexivity. Qed.

(** ** The encoder *)

Lemma wrap_from_seen i : ∀ (seen : gset string) n l,
  n ∈ seen → l ∈ wrap_from seen i → declares n l = false.
Proof.
  induction i as [|s rest IH]; intros seen n l Hn Hl; simpl in Hl.
  - by apply not_elem_of_nil in Hl.
  - case_decide.
    + apply elem_of_cons in Hl as [->|Hl]; [done|]. by eapply IH.
    + apply elem_of_cons in Hl as [->|Hl].
      { simpl. apply String.eqb_neq. intros E. by rewrite E in *. }
      apply elem_of_cons in Hl as [->|Hl]; [done|].
      eapply IH; [|done]. set_solver.
Qed.

Lemma wrap_from_names i : ∀ (seen : gset string) n,
  n ∈ map line_name (wrap_from seen i) → n ∈ map name i.
Proof.
  induction i as [|s rest IH]; intros seen n; simpl; [done|].
  case_decide; simpl; rewrite !elem_of_cons.
  - intros [->|Hn]; [by left|right; by eapply IH].
  - intros [->|[->|Hn]]; [by left..|right; by eapply IH].
Qed.

Lemma wrap_from_first i : ∀ (seen : gset string) n,
  n ∉ seen → n ∈ map name i →
  ∃ pre tp post,
    wrap_from seen i = (pre ++ TypeLine n tp :: post)%list ∧
    (∀ l, l ∈ pre → line_name l ≠ n) ∧
    (∀ l, l ∈ post → declares n l = false).
Proof.
  induction i as [|s rest IH]; intros seen n Hseen Hin; simpl in *.
  - by apply not_elem_of_nil in Hin.
  - destruct (decide (name s = n)) as [<-|Hne].
    + rewrite decide_False by done.
      exists [], (tp s), (ValueLine s :: wrap_from ({[name s]} ∪ seen) rest).
      split; [done|]. split; [by intros l ?%not_elem_of_nil|].
      intros l [->|Hl]%elem_of_cons; [done|].
      eapply wrap_from_seen; [|done]. apply elem_of_union_l, elem_of_singleton_2. done.
    + apply elem_of_cons in Hin as [?|Hin]; [done|].
      case_decide.
      * destruct (IH seen n Hseen Hin) as (pre & k & post & -> & Hpre & Hpost).
        exists (ValueLine s :: pre), k, post.
        split; [done|]. split; [|done].
        intros l [->|Hl]%elem_of_cons; [done|by apply Hpre].
      * destruct (IH ({[name s]} ∪ seen) n) as (pre & k & post & -> & Hpre & Hpost);
          [|done|].
        { intros [Hs%elem_of_singleton_1|Hs]%elem_of_union; [by symmetry in Hs|done]. }
        exists (TypeLine (name s) (tp s) :: ValueLine s :: pre), k, post.
        split; [done|]. split; [|done].
        intros l [->|[->|Hl]%elem_of_cons]%elem_of_cons; [done..|by apply Hpre].
Qed.

Lemma filter_declares_none n ls :
  (∀ l, l ∈ ls → declares n l = false) → List.filter (declares n) ls = [].
Proof.
  induction ls as [|l ls IH]; intros H; simpl; [done|].
  rewrite (H l) by left. apply IH. intros l' ?. apply H. by right.
Qed.

Lemma declares_line_name n l : declares n l = true → line_name l = n.
Proof. destruct l; simpl; [by intros ?%String.eqb_eq|done]. Qed.

(** ** Running generators *)

Lemma drain_bind {A B} dev (g : gen A) (f : A → gen B) : ∀ st,
  drain dev (g ≫= f) st =
  match drain dev g st with
  | (l, Returned a, st') =>
      let '(l', o, st'') := drain dev (f a) st' in ((l ++ l')%list, o, st'')
  | (l, Raised e, st') => (l, Raised e, st')
  | (l, Blocked, st') => (l, Blocked, st')
  end.
Proof.
  unfold mbind, gen_bind.
  induction g as [a|e|s k IH|ip port user psw k IH|w k IH|k IH|k IH];
    intros st; simpl.
  - by destruct (drain dev (f a) st) as [[??]?].
  - done.
  - rewrite IH. destruct (drain dev (k None) st) as [[l [a|e|]] st']; [|done..].
    by destruct (drain dev (f a) st') as [[??]?].
  - apply IH.
  - apply IH.
  - destruct (unread st); [done|apply IH].
  - apply IH.
Qed.

(** an exception that leaves a part of the body leaves the whole body:
    nothing after that part runs *)
Lemma drain_bind_raised {A B} dev (g : gen A) (f : A → gen B) st l e st' :
  drain dev g st = (l, Raised e, st') →
  drain dev (g ≫= f) st = (l, Raised e, st').
Proof. intros H. by rewrite drain_bind, H. Qed.

(** *** Bodies of the record loops leave the session alone *)

Create HintDb gen.

Lemma session_free_bind {A B} (g : gen A) (f : A → gen B) :
  session_free g → (∀ a, session_free (f a)) → session_free (g ≫= f).
Proof.
  unfold mbind, gen_bind. intros Hg Hf.
  induction g; simpl in *; try done; auto.
Qed.

Lemma session_free_try_except {A} (g : gen A) catches handler :
  session_free g → session_free handler →
  session_free (try_except g catches handler).
Proof.
  intros Hg Hh. induction g; simpl in *; try done; auto.
  by destruct (catches e).
Qed.

Lemma session_free_try_except_else {A B} (g : gen A) catches
    (handler : gen B) orelse :
  session_free g → session_free handler → (∀ a, session_free (orelse a)) →
  session_free (try_except_else g catches handler orelse).
Proof.
  intros Hg Hh Ho. induction g; simpl in *; try done; auto.
  by destruct (catches e).
Qed.

Lemma session_free_yield n k v l : session_free (yield_ n k v l).
Proof. by intros [e|]. Qed.

Lemma session_free_lift {A} (r : exn + A) : session_free (lift r).
Proof. by destruct r. Qed.

Lemma session_free_getitem obj k : session_free (getitem obj k).
Proof. unfold getitem. by destruct (dict_get k obj). Qed.

Lemma session_free_rate_lookup rate : session_free (rate_lookup rate).
Proof. unfold rate_lookup. by destruct (known_rate rate). Qed.

Lemma session_free_ret {A} (a : A) : session_free (mret a).
Proof. done. Qed.

Lemma session_free_Ret {A} (a : A) : session_free (Ret a).
Proof. done. Qed.

#[local] Hint Resolve session_free_bind session_free_try_except
  session_free_try_except_else session_free_yield session_free_lift
  session_free_getitem session_free_rate_lookup session_free_ret
  session_free_Ret : gen.

Lemma session_free_copy_keys keys obj : ∀ labels,
  session_free (copy_keys keys obj labels).
Proof. induction keys; simpl; auto with gen. Qed.

Lemma session_free_health_items target items :
  session_free (health_items target items).
Proof. induction items as [|[k v] r IH]; simpl; auto 10 with gen. Qed.

#[local] Hint Resolve session_free_copy_keys session_free_health_items : gen.

Lemma session_free_interface_record target obj :
  session_free (interface_record target obj).
Proof. unfold interface_record. auto 30 with gen. Qed.

Lemma session_free_monitor_record target obj :
  session_free (monitor_record target obj).
Proof. unfold monitor_record. auto 30 with gen. Qed.

Lemma session_free_poe_record target obj :
  session_free (poe_record target obj).
Proof. unfold poe_record. auto 30 with gen. Qed.

Lemma session_free_resource_record target obj :
  session_free (resource_record target obj).
Proof. unfold resource_record. auto 30 with gen. Qed.

Lemma session_free_health_record target obj :
  session_free (health_record target obj).
Proof. unfold health_record. auto with gen. Qed.

Lemma session_free_for_records res body :
  (∀ obj, session_free (body obj)) → session_free (for_records res body).
Proof.
  intros Hb. induction res as [|[[resp tag] obj] rest IH]; simpl; [done|].
  destruct (is_marker resp); auto with gen.
Qed.

(** such a body ends by returning or raising, and the session is as before *)
Lemma drain_session_free {A} dev (g : gen A) st :
  session_free g →
  (drain dev g st).2 = st ∧ (drain dev g st).1.2 ≠ Blocked.
Proof.
  induction g as [a|e|s k IH| | | |]; simpl; try done.
  intros Hk. destruct (IH None (Hk None)) as [H1 H2].
  by destruct (drain dev (k None) st) as [[l o] st'].
Qed.

(** ** The sample source *)

(** C2. The scenario's interface record yields exactly the six samples
    rx-bytes=100, tx-bytes=200, rx-packets=1, tx-packets=2, running=200 and
    actual-mtu=1500, each labelled host, port, type in that order: as the
    body of the interface loop, and as the whole run of the sample source
    against a device that reports this one interface and nothing else. *)
Theorem interface_scenario_six_samples (cfg : config) (dev : device) (st : session)
    (target : string) :
  drain dev (interface_record target ether1) st
    = (ether1_samples target, Returned tt, st) ∧
  drain (device_with [ether1] [] [] [] []) (scrape_mikrotik cfg target) fresh
    = (ether1_samples target, Returned tt,
       Session [(target, 8728, MIKROTIK_USER cfg, MIKROTIK_PASSWORD cfg)] [] true) ∧
  length (ether1_samples target) = 6%nat ∧
  Forall (λ s, labels s = [("host", VStr target); ("port", VStr "ether1");
                            ("type", VStr "ether")]) (ether1_samples target).
Proof.
  split; [reflexivity|]. split; [vm_compute; reflexivity|].
  split; [reflexivity|]. repeat constructor.
Qed.

(** ** The request handler *)

Lemma token_differs_false token configured :
  token_differs token configured = false ↔ token = configured.
Proof.
  destruct token as [a|], configured as [b|]; simpl; try done.
  rewrite negb_false_iff, String.eqb_eq. naive_solver.
Qed.

(** C3. With a bearer token configured (a non-empty value), a request whose
    token is missing or is another string gets the forbidden error and no
    streamed response at all; a request with the configured token, and any
    request when no token is configured, gets the streamed [text/plain]
    response with one sample source per target. *)
Theorem view_export_checks_token (cfg : config) (token : option string) :
  (∀ t, PROMETHEUS_BEARER_TOKEN cfg = Some t → t ≠ EmptyString →
        token ≠ Some t →
        view_export cfg token = Forbidden "Invalid bearer token") ∧
  (truthy (PROMETHEUS_BEARER_TOKEN cfg) = false
   ∨ token = PROMETHEUS_BEARER_TOKEN cfg →
   view_export cfg token
     = Stream "text/plain" (map (scrape_mikrotik cfg) (split_on "," (TARGETS cfg)))).
Proof.
  unfold view_export. split.
  - intros t Ht Hne Htok. rewrite Ht. simpl.
    apply String.eqb_neq in Hne. rewrite Hne. simpl.
    destruct (token_differs token (Some t)) eqn:E; [done|].
    by apply token_differs_false in E.
  - intros [E | E]; rewrite E; [done|].
    by rewrite (proj2 (token_differs_false _ _) eq_refl), andb_false_r.
Qed.

Lemma view_export_checks_token_witness :
  let cfg := Config "mikrotik_" (Some "s3cret") "admin" "pw" "r1,r2" in
  view_export cfg None = Forbidden "Invalid bearer token" ∧
  view_export cfg (Some "guess") = Forbidden "Invalid bearer token" ∧
  view_export cfg (Some "s3cret")
    = Stream "text/plain" [scrape_mikrotik cfg "r1"; scrape_mikrotik cfg "r2"].
Proof.
  intros cfg. split; [|split].
  - apply (proj1 (view_export_checks_token cfg None) "s3cret"); [reflexivity|done|done].
  - apply (proj1 (view_export_checks_token cfg (Some "guess")) "s3cret");
      [reflexivity|done|done].
  - apply (proj2 (view_export_checks_token cfg (Some "s3cret"))). by right.
Defined.

(** *** The physical-layer monitor *)





(** every sample named [interface-sfp-rx-power] carries the record's
    [sfp-tx-power] field *)
Lemma sfp_rx_power_sample_is_tx_power dev st target obj s :
  s ∈ (drain dev (monitor_record target obj) st).1.1 →
  name s = "interface-sfp-rx-power" →
  dict_get "sfp-tx-power" obj = Some (value s).
Proof.
  unfold monitor_record, getitem, rate_lookup.
  destruct (dict_get "name" obj) as [port|]; simpl; [|by intros ?%not_elem_of_nil].
  destruct (dict_get "rate" obj) as [rate|]; simpl;
    [destruct (known_rate rate) as [bps|]; simpl; [|by intros ?%not_elem_of_nil]|].
  all: destruct (dict_get "sfp-vendor-name" obj); simpl.
  all: destruct (dict_get "sfp-vendor-part-number" obj); simpl.
  all: destruct (dict_get "sfp-temperature" obj); simpl.
  all: destruct (dict_get "sfp-tx-power" obj); simpl.
  all: destruct (dict_get "status" obj); simpl.
  all: destruct (dict_get "sfp-module-present" obj) as [present|]; simpl.
  all: try (destruct (py_int present) as [[]|]; simpl).
  all: intros Hs; repeat (apply elem_of_cons in Hs as [->|Hs]; [by simpl|]).
  all: by apply not_elem_of_nil in Hs.
Qed.

(** C6. For the transceiver port [sfp1], whose receive power is -7.1 and
    transmit power is -2.5, the record yields the temperature, transmit-power
    and receive-power gauges, and the receive-power gauge carries -2.5, the
    transmit-power reading. *)
Theorem sfp_rx_power_gauge_on_sfp1 dev st target :
  dict_get "sfp-rx-power" sfp1 = Some (VStr "-7.1") ∧
  drain dev (monitor_record target sfp1) st =
    (let labels := [("host", VStr target); ("port", VStr "sfp1")] in
     [ Sample "interface-sfp-temperature" gauge (VStr "41") labels;
       Sample "interface-sfp-tx-power" gauge (VStr "-2.5") labels;
       Sample "interface-sfp-rx-power" gauge (VStr "-2.5") labels;
       Sample "interface-status" gauge (VInt 1)
         [("host", VStr target); ("port", VStr "sfp1"); ("status", VStr "link-ok")] ],
     Returned tt, st).
Proof. split; reflexivity. Qed.

Lemma int_of_string_error s e : int_of_string s = inl e → e = ValueError.
Proof.
  unfold int_of_string. destruct (read_sign (strip s)) as [neg r].
  destruct (digitpart r) as [[|d ds] [|c r']]; congruence.
Qed.

Lemma py_int_error v e :
  py_int v = inl e → is_KeyError e = false ∧ (∀ s, v = VStr s → e = ValueError).
Proof.
  destruct v as [s|z|f]; simpl.
  - intros ->%int_of_string_error. by split; [|intros].
  - done.
  - destruct f as [neg|neg| |neg m ex]; simpl; try destruct (ratio_of_finite m ex);
      intros [= <-]; by split.
Qed.




(** *** Optional fields *)

(** an interface record with its mandatory fields yields the four counters,
    then what the two guarded pairs let through, then the two gauges *)
Lemma interface_record_samples dev st target obj port type rxb txb rxp txp mtu running :
  dict_get "name" obj = Some port → dict_get "type" obj = Some type →
  dict_get "rx-byte" obj = Some rxb → dict_get "tx-byte" obj = Some txb →
  dict_get "rx-packet" obj = Some rxp → dict_get "tx-packet" obj = Some txp →
  dict_get "actual-mtu" obj = Some mtu → py_int txb = inr running →
  let labels := [("host", VStr target); ("port", port); ("type", type)] in
  drain dev (interface_record target obj) st =
    (([ Sample "interface-rx-bytes" counter rxb labels;
        Sample "interface-tx-bytes" counter txb labels;
        Sample "interface-rx-packets" counter rxp labels;
        Sample "interface-tx-packets" counter txp labels ]
      ++ pair_group obj "rx-error" "interface-rx-errors"
                        "tx-error" "interface-tx-errors" labels
      ++ pair_group obj "rx-drop" "interface-rx-drops"
                        "tx-drop" "interface-tx-drops" labels
      ++ [ Sample "interface-running" gauge (VInt running) labels;
           Sample "interface-actual-mtu" gauge mtu labels ])%list,
     Returned tt, st).
Proof.
  intros Hname Htype Hrxb Htxb Hrxp Htxp Hmtu Hint.
  unfold interface_record, getitem, pair_group.
  rewrite Hname, Htype, Hrxb, Htxb, Hrxp, Htxp, Hmtu. simpl.
  destruct (dict_get "rx-error" obj); simpl;
    [destruct (dict_get "tx-error" obj); simpl|];
    (destruct (dict_get "rx-drop" obj); simpl;
       [destruct (dict_get "tx-drop" obj); simpl|]);
    by rewrite Hint.
Qed.

Lemma poe_record_voltage_only dev st target obj port status v x :
  dict_get "name" obj = Some port → dict_get "poe-out-status" obj = Some status →
  dict_get "poe-out-voltage" obj = Some v → py_float v = inr x →
  dict_get "poe-out-current" obj = None →
  let labels := [("host", VStr target); ("port", port)] in
  drain dev (poe_record target obj) st =
    ([ Sample "poe-out-voltage" gauge (VFloat x) labels;
       Sample "poe-out-status" gauge (VInt 1) (dict_set "status" status labels) ],
     Returned tt, st).
Proof.
  intros Hname Hstatus Hv Hx Hc. unfold poe_record, getitem.
  rewrite Hname, Hstatus, Hv, Hc. simpl. by rewrite Hx.
Qed.

Lemma poe_record_no_voltage dev st target obj port status :
  dict_get "name" obj = Some port → dict_get "poe-out-status" obj = Some status →
  dict_get "poe-out-voltage" obj = None →
  let labels := [("host", VStr target); ("port", port)] in
  drain dev (poe_record target obj) st =
    ([Sample "poe-out-status" gauge (VInt 1) (dict_set "status" status labels)],
     Returned tt, st).
Proof.
  intros Hname Hstatus Hv. unfold poe_record, getitem.
  by rewrite Hname, Hstatus, Hv.
Qed.

(** C5, as stated, fails on the interface example: with [tx-error] present
    and [rx-error] absent the record yields the six plain samples and no
    [interface-tx-errors] sample. *)
Lemma tx_errors_lost_without_rx_error :
  dict_get "tx-error" tx_error_only = Some (VInt 7) ∧
  dict_get "rx-error" tx_error_only = None ∧
  drain (device_with [] [] [] [] []) (interface_record "r1" tx_error_only) fresh
    = (ether1_samples "r1", Returned tt, fresh) ∧
  ¬ ∃ s, s ∈ (drain (device_with [] [] [] [] [])
                (interface_record "r1" tx_error_only) fresh).1.1
         ∧ name s = "interface-tx-errors".
Proof.
  split; [reflexivity|]. split; [reflexivity|]. split; [reflexivity|].
  intros (s & Hin & Hname). simpl in Hin.
  repeat (apply elem_of_cons in Hin as [->|Hin]; [by simpl in Hname|]).
  by apply not_elem_of_nil in Hin.
Qed.

(** ** How values are rendered *)

Lemma all_digits_pretty_N_go x : ∀ s,
  all_digits s = true → all_digits (pretty_N_go x s) = true.
Proof.
  induction (N.lt_wf_0 x) as [x _ IH]; intros s Hs.
  destruct (decide (x = 0)%N) as [->|Hx]; [by rewrite pretty_N_go_0|].
  rewrite pretty_N_go_step by lia. apply IH.
  - apply N.div_lt; lia.
  - simpl. rewrite Hs, andb_true_r. unfold pretty_N_char.
    by repeat case_match.
Qed.

Lemma pretty_N_go_nonempty x : ∀ s,
  s ≠ EmptyString → pretty_N_go x s ≠ EmptyString.
Proof.
  induction (N.lt_wf_0 x) as [x _ IH]; intros s Hs.
  destruct (decide (x = 0)%N) as [->|Hx]; [by rewrite pretty_N_go_0|].
  rewrite pretty_N_go_step by lia. apply IH; [apply N.div_lt; lia|done].
Qed.

Lemma pretty_positive_digits (p : positive) :
  all_digits (pretty p) = true ∧ pretty p ≠ EmptyString.
Proof.
  unfold pretty, pretty_positive, pretty, pretty_N.
  rewrite decide_False by done.
  rewrite pretty_N_go_step by lia. split.
  - apply all_digits_pretty_N_go. simpl. rewrite andb_true_r.
    unfold pretty_N_char. by repeat case_match.
  - by apply pretty_N_go_nonempty.
Qed.

Lemma is_int_literal_digits s :
  all_digits s = true → s ≠ EmptyString → is_int_literal s = true.
Proof.
  intros Hd Hne. unfold is_int_literal. destruct s as [|c r]; [done|].
  destruct (Ascii.eqb_spec c "-") as [->|_]; [done|].
  rewrite Hd, andb_true_r. by apply negb_true_iff, String.eqb_neq.
Qed.

Lemma str_int_is_int_literal z : is_int_literal (str_int z) = true.
Proof.
  unfold str_int, pretty, pretty_Z. destruct z as [|p|p].
  - done.
  - destruct (pretty_positive_digits p). by apply is_int_literal_digits.
  - destruct (pretty_positive_digits p) as [Hd Hne].
    change (is_int_literal (String "-" (pretty p)) = true).
    unfold is_int_literal. rewrite Ascii.eqb_refl, Hd, andb_true_r.
    by apply negb_true_iff, String.eqb_neq.
Qed.

#[local] Arguments String.append : simpl nomatch.

Lemma string_app_assoc (a b c : string) : ((a ++ b) ++ c = a ++ (b ++ c))%string.
Proof. induction a; simpl; congruence. Qed.

Lemma all_digits_app_mark a c b :
  is_digit c = false → all_digits (a ++ String c b) = false.
Proof.
  intros Hc. induction a as [|d a IH]; simpl; [by rewrite Hc|].
  by rewrite IH, andb_false_r.
Qed.

(** a text with a point or an [e] in it is not an integer literal *)
Lemma not_int_literal_mark a c b :
  c = "."%char ∨ c = "e"%char → is_int_literal (a ++ String c b) = false.
Proof.
  intros Hc. assert (is_digit c = false) by (by destruct Hc as [-> | ->]).
  unfold is_int_literal. destruct a as [|d a]; simpl.
  - by destruct Hc as [-> | ->].
  - destruct (d =? "-")%char.
    + by rewrite all_digits_app_mark, andb_false_r.
    + simpl. by rewrite all_digits_app_mark, !andb_false_r.
Qed.

Lemma format_digits_shape ds decpt :
  format_digits ds decpt = EmptyString ∨
  ∃ a c b, format_digits ds decpt = (a ++ String c b)%string
           ∧ (c = "."%char ∨ c = "e"%char).
Proof.
  unfold format_digits.
  destruct ((decpt <=? -4) || (16 <? decpt)).
  - destruct ds as [|d [|d' r]]; [by left|right..].
    + exists (String d EmptyString), "e"%char, (format_exponent (decpt - 1)).
      by split; [|right].
    + by eexists (String d EmptyString), "."%char, _; split; [|left].
  - right. destruct (decpt <=? 0).
    + by eexists "0", "."%char, _; split; [|left].
    + destruct (slen ds <=? decpt).
      * exists (ds ++ zeros (Z.to_nat (decpt - slen ds)))%string, "."%char, "0".
        split; [|by left]. by rewrite string_app_assoc.
      * by eexists _, "."%char, _; split; [|left].
Qed.

Lemma str_float_not_int_literal x : is_int_literal (str_float x) = false.
Proof.
  destruct x as [[]|[]| |s m e]; try done. unfold str_float.
  destruct (float_digits m e) as [ds decpt].
  destruct (format_digits_shape ds decpt) as [->|(a & c & b & -> & Hc)].
  - by destruct s.
  - destruct s; simpl; [|by apply not_int_literal_mark].
    by apply (not_int_literal_mark (String "-" a)).
Qed.

Lemma health_record_numeric dev st target key raw x :
  py_float raw = inr x →
  drain dev (health_record target [(key, raw)]) st =
    ([Sample ("system-health-" ++ key) gauge (VFloat x) [("host", VStr target)]],
     Returned tt, st).
Proof. intros Hx. unfold health_record. simpl. by rewrite Hx. Qed.

(** C7, as stated, fails on its own example: the health reading "40" is
    turned into a float and rendered as 40.0. *)
Lemma health_reading_40_renders_40_0 :
  ∃ x,
    drain (device_with [] [] [] [] [])
          (health_record "r1" [("temperature", VStr "40")]) fresh
      = ([Sample "system-health-temperature" gauge (VFloat x) [("host", VStr "r1")]],
         Returned tt, fresh) ∧
    str (VFloat x) = "40.0" ∧
    str (VFloat x) ≠ "40" ∧
    wrap (Config "mikrotik_" None "admin" "pw" "r1")
         [Sample "system-health-temperature" gauge (VFloat x) [("host", VStr "r1")]]
      = [ "# TYPE mikrotik_system-health-temperature gauge";
          ("mikrotik_system-health-temperature{host=" ++ dquote ++ "r1" ++ dquote
           ++ "} 40.0")%string ].
Proof.
  exists (S754_finite false 5629499534213120 (-47)).
  split; [vm_compute; reflexivity|]. split; [vm_compute; reflexivity|].
  split; [vm_compute; discriminate|vm_compute; reflexivity].
Qed.

(** ** The session's end *)

Lemma close_last_bind_session_free {A B} (g : gen A) (f : A → gen B) :
  session_free g → (∀ a, close_last (f a)) → close_last (g ≫= f).
Proof.
  unfold mbind, gen_bind. intros Hg Hf.
  induction g; simpl in *; try done; auto.
Qed.

Lemma returns_closed_bind {A B} (g : gen A) (f : A → gen B) :
  (∀ a, returns_closed (f a)) → returns_closed (g ≫= f).
Proof.
  unfold mbind, gen_bind. intros Hf. induction g; simpl in *; try done; auto.
Qed.

Lemma close_last_scrape cfg target : close_last (scrape_mikrotik cfg target).
Proof.
  unfold scrape_mikrotik. simpl.
  repeat (intros ?; apply close_last_bind_session_free;
          [apply session_free_for_records; intros;
           first [apply session_free_interface_record
                 |apply session_free_monitor_record
                 |apply session_free_poe_record
                 |apply session_free_resource_record
                 |apply session_free_health_record]
          |intros []; simpl]).
  unfold close. by exists tt.
Qed.

Lemma returns_closed_scrape cfg target :
  returns_closed (scrape_mikrotik cfg target).
Proof.
  unfold scrape_mikrotik. simpl.
  repeat (intros ?; apply returns_closed_bind; intros []; simpl).
  by unfold close.
Qed.

Lemma drain_close_last {A} dev (g : gen A) : ∀ st l o st',
  close_last g → closed st = false →
  drain dev g st = (l, o, st') → closed st' = true → ∃ a, o = Returned a.
Proof.
  induction g as [a|e|s k IH|ip port user psw k IH|w k IH|k IH|k IH];
    simpl; intros st l o st' Hg Hst Hrun Hcl.
  - exists a. congruence.
  - congruence.
  - destruct (drain dev (k None) st) as [[l' o'] st''] eqn:E.
    injection Hrun as <- <- <-. by eapply IH.
  - by eapply IH in Hrun.
  - by eapply IH in Hrun.
  - destruct (unread st); [congruence|]. by eapply IH in Hrun.
  - destruct Hg as [a ->]. simpl in Hrun. exists a. congruence.
Qed.

Lemma closing_close_last {A} dev (g : gen A) : ∀ st o st',
  close_last g → closed st = false →
  closing dev g st = (o, st') → closed st' = true → ∃ a, o = Returned a.
Proof.
  induction g as [a|e|s k IH|ip port user psw k IH|w k IH|k IH|k IH];
    simpl; intros st o st' Hg Hst Hrun Hcl.
  - exists a. congruence.
  - congruence.
  - congruence.
  - by eapply IH in Hrun.
  - by eapply IH in Hrun.
  - destruct (unread st); [congruence|]. by eapply IH in Hrun.
  - destruct Hg as [a ->]. simpl in Hrun. exists a. congruence.
Qed.

Lemma pull_close_last {A} dev (g : gen A) : ∀ n st l o st',
  close_last g → closed st = false →
  pull dev n g st = (l, o, st') → closed st' = true → ∃ a, o = Returned a.
Proof.
  induction g as [a|e|s k IH|ip port user psw k IH|w k IH|k IH|k IH];
    simpl; intros n st l o st' Hg Hst Hrun Hcl.
  - exists a. congruence.
  - congruence.
  - destruct n as [|n].
    + destruct (closing dev (k (Some GeneratorExit)) st) as [o' st''] eqn:E.
      injection Hrun as <- <- <-. by eapply closing_close_last.
    + destruct (pull dev n (k None) st) as [[l' o'] st''] eqn:E.
      injection Hrun as <- <- <-. by eapply IH.
  - by eapply IH in Hrun.
  - by eapply IH in Hrun.
  - destruct (unread st); [congruence|]. by eapply IH in Hrun.
  - destruct Hg as [a ->]. simpl in Hrun. exists a. congruence.
Qed.

(** a closed session stays closed *)
Lemma drain_closed_mono {A} dev (g : gen A) : ∀ st l o st',
  closed st = true → drain dev g st = (l, o, st') → closed st' = true.
Proof.
  induction g as [a|e|s k IH|ip port user psw k IH|w k IH|k IH|k IH];
    simpl; intros st l o st' Hst Hrun.
  - congruence.
  - congruence.
  - destruct (drain dev (k None) st) as [[l' o'] st''] eqn:E.
    injection Hrun as <- <- <-. by eapply IH.
  - by eapply IH in Hrun.
  - by eapply IH in Hrun.
  - destruct (unread st) eqn:E; [congruence|]. by eapply IH in Hrun.
  - by eapply IH in Hrun.
Qed.

Lemma drain_returns_closed {A} dev (g : gen A) : ∀ st l a st',
  returns_closed g → drain dev g st = (l, Returned a, st') → closed st' = true.
Proof.
  induction g as [a'|e|s k IH|ip port user psw k IH|w k IH|k IH|k IH];
    simpl; intros st l a st' Hg Hrun.
  - done.
  - congruence.
  - destruct (drain dev (k None) st) as [[l' o'] st''] eqn:E.
    injection Hrun as <- -> <-. by eapply IH.
  - by eapply IH in Hrun.
  - by eapply IH in Hrun.
  - destruct (unread st); [congruence|]. by eapply IH in Hrun.
  - by eapply drain_closed_mono in Hrun.
Qed.

(** on every run of the sample source, the session ends closed exactly when
    the generator ran to its normal end: a run that ends in an exception, or
    that the consumer closes early, leaves the session open *)
Lemma scrape_closes_only_at_normal_end cfg dev target st :
  closed st = false →
  (∀ l o st', drain dev (scrape_mikrotik cfg target) st = (l, o, st') →
     (closed st' = true ↔ o = Returned tt)) ∧
  (∀ n l o st', pull dev n (scrape_mikrotik cfg target) st = (l, o, st') →
     closed st' = true → o = Returned tt).
Proof.
  intros Hst. split.
  - intros l o st' Hrun. split.
    + intros Hcl.
      destruct (drain_close_last dev _ st l o st' (close_last_scrape cfg target)
                  Hst Hrun Hcl) as [[] ->]. done.
    + intros ->. by eapply drain_returns_closed, Hrun; apply returns_closed_scrape.
  - intros n l o st' Hrun Hcl.
    destruct (pull_close_last dev _ n st l o st' (close_last_scrape cfg target)
                Hst Hrun Hcl) as [[] ->]. done.
Qed.

(** C8. The session is closed when the sample source runs to its end, and
    on no other exit path.  Against a device that reports the scenario's
    interface and a port with the rate "7Gbps", the run ends in [KeyError]
    after the six interface samples with the session still open; a consumer
    that takes one sample and closes the generator leaves the session open
    as well; against a device whose port has a rate from the table the run
    returns and the session is closed. *)
Theorem session_left_open_when_aborted cfg target :
  let dev := device_with [ether1] [odd_rate_port] [] [] [] in
  let opened := [(target, 8728, MIKROTIK_USER cfg, MIKROTIK_PASSWORD cfg)] in
  drain dev (scrape_mikrotik cfg target) fresh
    = (ether1_samples target, Raised (KeyError (VStr "7Gbps")),
       Session opened [] false) ∧
  pull dev 0 (scrape_mikrotik cfg target) fresh
    = ([Sample "interface-rx-bytes" counter (VInt 100) (ether1_labels target)],
       Raised GeneratorExit, Session opened [] false) ∧
  ∃ l, drain (device_with [ether1] [gigabit_port] [] [] [])
             (scrape_mikrotik cfg target) fresh
         = (l, Returned tt, Session opened [] true).
Proof.
  intros dev opened. split; [vm_compute; reflexivity|].
  split; [vm_compute; reflexivity|].
  eexists. vm_compute. reflexivity.
Qed.

(** * Further properties of the code *)

(** ** The encoder, continued *)

Lemma value_lines_wrap_from i : ∀ seen, value_lines (wrap_from seen i) = i.
Proof.
  induction i as [|s rest IH]; intros seen; simpl; [done|].
  case_decide; unfold value_lines in *; simpl; by rewrite IH.
Qed.

(** X1. The value lines of the output are the received samples, each once
    and in the order received: [wrap] drops, repeats and reorders nothing. *)
Theorem wrap_keeps_every_sample (i : list sample) :
  value_lines (wrap_lines i) = i.
Proof. apply value_lines_wrap_from. Qed.

Lemma wrap_from_app i j : ∀ seen,
  wrap_from seen (i ++ j)%list
  = (wrap_from seen i ++ wrap_from (list_to_set (map name i) ∪ seen) j)%list.
Proof.
  induction i as [|s rest IH]; intros seen; simpl.
  - by rewrite (left_id_L ∅ (∪)).
  - case_decide; simpl; rewrite IH.
    + do 3 f_equal. apply set_eq. intros x.
      rewrite !elem_of_union, elem_of_singleton.
      split; [tauto|]. intros [[->|?]|?]; auto.
    + do 4 f_equal. apply set_eq. intros x.
      rewrite !elem_of_union, elem_of_singleton. tauto.
Qed.

(** X2. The encoder works incrementally: the lines for a stream that goes
    on are the lines already produced for what has arrived, followed by the
    lines for the rest with the names seen so far already declared; so what
    [streaming_fn] has written is never revised by later samples. *)
Theorem wrap_is_incremental (cfg : config) (i j : list sample) :
  wrap_lines (i ++ j)%list
    = (wrap_lines i ++ wrap_from (list_to_set (map name i)) j)%list ∧
  streaming_fn cfg i `prefix_of` streaming_fn cfg (i ++ j)%list.
Proof.
  assert (H : wrap_lines (i ++ j)%list
              = (wrap_lines i ++ wrap_from (list_to_set (map name i)) j)%list).
  { unfold wrap_lines. rewrite wrap_from_app. by rewrite (right_id_L ∅ (∪)). }
  split; [done|].
  unfold streaming_fn, wrap. rewrite H, !map_app. by eexists.
Qed.
Lemma wrap_from_type_line_next i : ∀ seen pre n k post,
  wrap_from seen i = (pre ++ TypeLine n k :: post)%list →
  ∃ s post', post = ValueLine s :: post' ∧ name s = n ∧ tp s = k.
Proof.
  induction i as [|s rest IH]; intros seen pre n k post; simpl.
  - by destruct pre.
  - case_decide.
    + destruct pre as [|x pre]; simpl; [done|]. intros [= _ H']. by eapply IH.
    + destruct pre as [|x [|y pre]]; simpl.
      * intros [= <- <- <-]. by eexists _, _.
      * done.
      * intros [= _ _ H']. by eapply IH.
Qed.

(** X3. A type-declaration line is always immediately followed by a value
    line of a sample with the declared name and the declared kind: the kind
    written for a name is the kind of the first sample received under it. *)
Theorem type_line_precedes_its_first_sample (i : list sample) pre n k post :
  wrap_lines i = (pre ++ TypeLine n k :: post)%list →
  ∃ s post', post = ValueLine s :: post' ∧ name s = n ∧ tp s = k.
Proof. apply wrap_from_type_line_next. Qed.

Lemma type_line_precedes_its_first_sample_witness :
  let i := [Sample "a" counter (VInt 1) []; Sample "a" gauge (VInt 2) []] in
  wrap_lines i = ([] ++ TypeLine "a" counter :: [ValueLine (Sample "a" counter (VInt 1) []);
                                                  ValueLine (Sample "a" gauge (VInt 2) [])])%list ∧
  ∃ s post', [ValueLine (Sample "a" counter (VInt 1) []);
              ValueLine (Sample "a" gauge (VInt 2) [])] = ValueLine s :: post'
             ∧ name s = "a" ∧ tp s = counter.
Proof.
  intros i.
  assert (H : wrap_lines i
              = ([] ++ TypeLine "a" counter
                    :: [ValueLine (Sample "a" counter (VInt 1) []);
                        ValueLine (Sample "a" gauge (VInt 2) [])])%list)
    by (vm_compute; reflexivity).
  split; [exact H|]. exact (type_line_precedes_its_first_sample i _ _ _ _ H).
Defined.

(** ** What every yielded sample looks like *)

Lemma yields_ok_weaken {A} P (Q Q' : A → Prop) (g : gen A) :
  (∀ a, Q a → Q' a) → yields_ok P Q g → yields_ok P Q' g.
Proof. intros HQ. induction g; simpl; intuition auto. Qed.

Lemma yields_ok_bind {A B} P (Q : A → Prop) (R : B → Prop) (g : gen A) (f : A → gen B) :
  yields_ok P Q g → (∀ a, Q a → yields_ok P R (f a)) → yields_ok P R (g ≫= f).
Proof.
  unfold mbind, gen_bind. intros Hg Hf. induction g; simpl in *; intuition auto.
Qed.

Lemma yields_ok_try_except {A} P (Q : A → Prop) (g h : gen A) catches :
  yields_ok P Q g → yields_ok P Q h → yields_ok P Q (try_except g catches h).
Proof.
  intros Hg Hh. induction g; simpl in *; try solve [intuition auto].
  by destruct (catches e).
Qed.

Lemma yields_ok_try_except_else {A B} P (Q : A → Prop) (R : B → Prop)
    (g : gen A) (h : gen B) catches (f : A → gen B) :
  yields_ok P Q g → yields_ok P R h → (∀ a, Q a → yields_ok P R (f a)) →
  yields_ok P R (try_except_else g catches h f).
Proof.
  intros Hg Hh Hf. induction g; simpl in *; try solve [intuition auto].
  by destruct (catches e).
Qed.

Lemma yields_ok_getitem P obj k : yields_ok P (λ _, True) (getitem obj k).
Proof. unfold getitem. by destruct (dict_get k obj). Qed.

Lemma yields_ok_lift {A} P (r : exn + A) : yields_ok P (λ _, True) (lift r).
Proof. by destruct r. Qed.

Lemma yields_ok_rate_lookup P rate : yields_ok P (λ _, True) (rate_lookup rate).
Proof. unfold rate_lookup. by destruct (known_rate rate). Qed.

Lemma yields_ok_yield (P : sample → Prop) n k v l :
  P (Sample n k v l) → yields_ok P (λ _, True) (yield_ n k v l).
Proof. intros HP. split; [done|]. by intros [e|]. Qed.

Lemma yields_ok_drain {A} P (Q : A → Prop) dev (g : gen A) : ∀ st,
  yields_ok P Q g →
  Forall P (drain dev g st).1.1 ∧
  ∀ a, (drain dev g st).1.2 = Returned a → Q a.
Proof.
  induction g as [a|e|s k IH|ip port user psw k IH|w k IH|k IH|k IH];
    simpl; intros st Hg; try (by apply IH).
  - split; [done|]. by intros ? [= <-].
  - done.
  - destruct Hg as [Hs Hk]. destruct (IH None st (Hk None)) as [H1 H2].
    destruct (drain dev (k None) st) as [[l o] st']. simpl in *.
    split; [by constructor|done].
  - destruct (unread st); [done|]. by apply IH.
Qed.

Lemma yields_ok_closing {A} P (Q : A → Prop) dev (g : gen A) : ∀ st,
  yields_ok P Q g → ∀ a, (closing dev g st).1 = Returned a → Q a.
Proof.
  induction g as [a|e|s k IH|ip port user psw k IH|w k IH|k IH|k IH];
    simpl; intros st Hg; try (by apply IH); try done.
  - by intros ? [= <-].
  - destruct (unread st); [done|]. by apply IH.
Qed.

Lemma yields_ok_pull {A} P (Q : A → Prop) dev (g : gen A) : ∀ n st,
  yields_ok P Q g → Forall P (pull dev n g st).1.1.
Proof.
  induction g as [a|e|s k IH|ip port user psw k IH|w k IH|k IH|k IH];
    simpl; intros n st Hg; try (by apply IH); try done.
  - destruct Hg as [Hs Hk]. destruct n as [|n].
    + destruct (closing dev _ st). simpl. by repeat constructor.
    + specialize (IH None n st (Hk None)).
      destruct (pull dev n (k None) st) as [[l o] st']. simpl in *.
      by constructor.
  - destruct (unread st); [done|]. by apply IH.
Qed.

(** *** Label dicts *)

Lemma dict_get_set_eq {V} k (v : V) d : dict_get k (dict_set k v d) = Some v.
Proof.
  induction d as [|[k' v'] d IH]; simpl.
  - by rewrite String.eqb_refl.
  - destruct (String.eqb_spec k k') as [->|Hne]; simpl.
    + by rewrite String.eqb_refl.
    + by apply String.eqb_neq in Hne as ->.
Qed.

Lemma dict_get_set_ne {V} k k' (v : V) d :
  k ≠ k' → dict_get k' (dict_set k v d) = dict_get k' d.
Proof.
  intros Hne. induction d as [|[k0 v0] d IH]; simpl.
  - apply not_eq_sym, String.eqb_neq in Hne. by rewrite Hne.
  - destruct (String.eqb_spec k k0) as [->|Hk]; simpl.
    + apply not_eq_sym, String.eqb_neq in Hne. by rewrite !Hne.
    + by rewrite IH.
Qed.

Lemma dict_set_keys {V} k (v : V) d :
  map fst (dict_set k v d)
  = match dict_get k d with
    | Some _ => map fst d
    | None => (map fst d ++ [k])%list
    end.
Proof.
  induction d as [|[k' v'] d IH]; simpl; [done|].
  destruct (String.eqb_spec k k') as [->|Hne]; simpl; [done|].
  rewrite IH. by destruct (dict_get k d).
Qed.

Lemma dict_get_None_keys {V} k (d : dict V) : dict_get k d = None → k ∉ map fst d.
Proof.
  induction d as [|[k' v'] d IH]; simpl; [by intros _ ?%not_elem_of_nil|].
  destruct (String.eqb_spec k k') as [->|Hne]; [done|].
  intros H [?|?]%elem_of_cons; [done|by apply IH].
Qed.

Lemma dict_set_NoDup {V} k (v : V) d :
  NoDup (map fst d) → NoDup (map fst (dict_set k v d)).
Proof.
  intros Hd. rewrite dict_set_keys. destruct (dict_get k d) eqn:E; [done|].
  apply NoDup_app. split; [done|]. split.
  - intros x Hx [->|[]%not_elem_of_nil]%elem_of_cons.
    by apply dict_get_None_keys in E.
  - apply NoDup_singleton.
Qed.

Lemma good_labels_set target k v l :
  (k =? "host")%string = false →
  good_labels target l → good_labels target (dict_set k v l).
Proof.
  intros Hk [Hnd [rest ->]]. split; [by apply dict_set_NoDup|].
  simpl. rewrite Hk. by eexists.
Qed.

Lemma good_labels_host target : good_labels target [("host", VStr target)].
Proof. split; [|by eexists]. simpl. apply NoDup_singleton. Qed.

Lemma good_labels_port target port :
  good_labels target [("host", VStr target); ("port", port)].
Proof.
  apply (good_labels_set target "port" port [("host", VStr target)] eq_refl),
    good_labels_host.
Qed.

(** *** The record bodies *)

Ltac yields_step :=
  lazymatch goal with
  | |- yields_ok _ _ (getitem _ _ ≫= _) =>
      eapply yields_ok_bind; [apply yields_ok_getitem|intros ? _]
  | |- yields_ok _ _ (lift _ ≫= _) =>
      eapply yields_ok_bind; [apply yields_ok_lift|intros ? _]
  | |- yields_ok _ _ (rate_lookup _ ≫= _) =>
      eapply yields_ok_bind; [apply yields_ok_rate_lookup|intros ? _]
  | |- yields_ok _ _ (yield_ _ _ _ _ ≫= _) =>
      eapply yields_ok_bind; [apply yields_ok_yield; split; [reflexivity|]|intros ? _]
  | |- yields_ok _ _ (yield_ _ _ _ _) =>
      apply yields_ok_yield; split; [reflexivity|]
  | |- yields_ok _ _ (getitem _ _) => apply yields_ok_getitem
  | |- yields_ok _ _ (lift _) => apply yields_ok_lift
  | |- yields_ok _ (λ _, True) (try_except _ _ _) =>
      apply yields_ok_try_except; [|exact I]
  | |- yields_ok _ _ (try_except _ _ (Ret tt) ≫= _) =>
      eapply (yields_ok_bind _ (λ _, True)); [|intros ? _]
  | |- yields_ok _ _ (try_except_else _ _ _ _ ≫= _) =>
      eapply (yields_ok_bind _ (λ _, True));
        [apply (yields_ok_try_except_else _ (λ _, True)); [|exact I|intros ? _]|intros ? _]
  end.

Ltac yields_get x :=
  eapply yields_ok_bind; [apply yields_ok_getitem|intros x _].

(** an optional label: [try: labels[k] = <body> except KeyError: pass] *)
Lemma yields_ok_optional_label {B} P target (R : B → Prop) k
    (body : gen Py.value) labels (f : dict Py.value → gen B) :
  (k =? "host")%string = false →
  good_labels target labels →
  yields_ok P (λ _, True) body →
  (∀ labels', good_labels target labels' → yields_ok P R (f labels')) →
  yields_ok P R
    (try_except (v ← body; mret (dict_set k v labels)) is_KeyError (mret labels)
     ≫= f).
Proof.
  intros Hk Hl Hb Hf. eapply (yields_ok_bind _ (good_labels target)); [|done].
  apply yields_ok_try_except; [|done].
  eapply yields_ok_bind; [done|]. intros v _. by apply good_labels_set.
Qed.

Lemma yields_ok_interface_record target obj :
  yields_ok (good_sample target) (λ _, True) (interface_record target obj).
Proof.
  unfold interface_record. yields_get port. yields_get type.
  assert (good_labels target [("host", VStr target); ("port", port); ("type", type)]).
  { apply (good_labels_set target "type" type
             [("host", VStr target); ("port", port)] eq_refl), good_labels_port. }
  repeat yields_step; done.
Qed.

Lemma yields_ok_monitor_record target obj :
  yields_ok (good_sample target) (λ _, True) (monitor_record target obj).
Proof.
  unfold monitor_record. yields_get port.
  pose proof (good_labels_port target port).
  repeat yields_step; try done.
  apply (yields_ok_optional_label _ target); [done|done|apply yields_ok_getitem|].
  intros labels1 H1.
  apply (yields_ok_optional_label _ target); [done|done|apply yields_ok_getitem|].
  intros labels2 H2.
  repeat yields_step; try done.
  eapply (yields_ok_bind _ (good_labels target));
    [|intros labels3 H3; by yields_step].
  apply yields_ok_try_except; [|by apply good_labels_set].
  yields_get v. eapply yields_ok_bind; [apply yields_ok_lift|intros n _].
  apply good_labels_set; [done|]. by apply good_labels_set.
Qed.

Lemma yields_ok_poe_record target obj :
  yields_ok (good_sample target) (λ _, True) (poe_record target obj).
Proof.
  unfold poe_record. yields_get port.
  pose proof (good_labels_port target port).
  repeat yields_step; try done. by apply good_labels_set.
Qed.

Lemma yields_ok_copy_keys P target keys obj : ∀ labels,
  Forall (λ k, (k =? "host")%string = false) keys →
  good_labels target labels →
  yields_ok P (good_labels target) (copy_keys keys obj labels).
Proof.
  induction keys as [|k keys IH]; intros labels Hk Hl; simpl; [done|].
  apply Forall_cons in Hk as [Hk Hks]. yields_get v.
  apply IH; [done|]. by apply good_labels_set.
Qed.

Lemma yields_ok_resource_record target obj :
  yields_ok (good_sample target) (λ _, True) (resource_record target obj).
Proof.
  unfold resource_record. pose proof (good_labels_host target).
  repeat yields_step; try done.
  eapply yields_ok_bind; [apply (yields_ok_copy_keys _ target)|].
  - by repeat constructor.
  - done.
  - intros labels Hl. by yields_step.
Qed.

Lemma kind_of_health_name key : kind_of_name ("system-health-" ++ key) = gauge.
Proof. reflexivity. Qed.

Lemma yields_ok_health_record target obj :
  yields_ok (good_sample target) (λ _, True) (health_record target obj).
Proof.
  unfold health_record. induction obj as [|[key value] rest IH]; simpl; [done|].
  eapply (yields_ok_bind _ (λ _, True)); [|by intros].
  apply (yields_ok_try_except_else _ (λ _, True)).
  - apply yields_ok_lift.
  - apply yields_ok_yield. split; [symmetry; apply kind_of_health_name|].
    apply (good_labels_set target "state" value [("host", VStr target)] eq_refl),
      good_labels_host.
  - intros x _. apply yields_ok_yield. split; [symmetry; apply kind_of_health_name|].
    apply good_labels_host.
Qed.

Lemma yields_ok_for_records P res body :
  (∀ obj, yields_ok P (λ _, True) (body obj)) →
  yields_ok P (λ _, True) (for_records res body).
Proof.
  intros Hb. induction res as [|[[resp tag] obj] rest IH]; simpl; [done|].
  destruct (is_marker resp); [done|].
  eapply yields_ok_bind; [apply Hb|by intros].
Qed.

Lemma yields_ok_scrape cfg target :
  yields_ok (good_sample target) (λ _, True) (scrape_mikrotik cfg target).
Proof.
  unfold scrape_mikrotik. simpl.
  repeat (intros ?; eapply yields_ok_bind;
          [apply yields_ok_for_records; intros;
           first [apply yields_ok_interface_record
                 |apply yields_ok_monitor_record
                 |apply yields_ok_poe_record
                 |apply yields_ok_resource_record
                 |apply yields_ok_health_record]
          |intros [] _; simpl]).
  by unfold close.
Qed.

Lemma scrape_samples_good cfg dev target st s :
  s ∈ (drain dev (scrape_mikrotik cfg target) st).1.1 → good_sample target s.
Proof.
  intros Hs.
  destruct (yields_ok_drain _ _ dev _ st (yields_ok_scrape cfg target)) as [H _].
  by eapply Forall_forall in H.
Qed.

(** X4. Every sample the source yields, on a full run or on one the consumer
    cuts short, against any device, carries a label dict that starts with
    [host] set to the run's target and has no key twice. *)
Theorem yielded_labels_start_with_host cfg dev target st n s :
  s ∈ (drain dev (scrape_mikrotik cfg target) st).1.1
  ∨ s ∈ (pull dev n (scrape_mikrotik cfg target) st).1.1 →
  NoDup (map fst (labels s)) ∧ ∃ rest, labels s = ("host", VStr target) :: rest.
Proof.
  intros [Hs|Hs].
  - by apply (scrape_samples_good cfg dev target st s).
  - pose proof (yields_ok_pull _ _ dev _ n st (yields_ok_scrape cfg target)) as H.
    eapply Forall_forall in H; [|done]. apply H.
Qed.

Lemma yielded_labels_start_with_host_witness :
  let cfg := Config "mikrotik_" None "admin" "pw" "r1" in
  let s := Sample "interface-rx-bytes" counter (VInt 100) (ether1_labels "r1") in
  NoDup (map fst (labels s)) ∧ ∃ rest, labels s = ("host", VStr "r1") :: rest.
Proof.
  intros cfg s.
  apply (yielded_labels_start_with_host cfg (device_with [ether1] [] [] [] [])
           "r1" fresh 0 s).
  left. vm_compute. left.
Defined.

Lemma produced_kind s : produced s → tp s = kind_of_name (name s).
Proof. intros (cfg & dev & target & st & Hs). by apply scrape_samples_good in Hs as [? _]. Qed.

(** X5. A metric name has one kind: two samples with the same name, from
    any two runs of the source (any targets, any devices), have the same
    kind. *)
Theorem same_name_same_kind cfg1 dev1 target1 st1 cfg2 dev2 target2 st2 s1 s2 :
  s1 ∈ (drain dev1 (scrape_mikrotik cfg1 target1) st1).1.1 →
  s2 ∈ (drain dev2 (scrape_mikrotik cfg2 target2) st2).1.1 →
  name s1 = name s2 → tp s1 = tp s2.
Proof.
  intros [H1 _]%scrape_samples_good [H2 _]%scrape_samples_good Hn.
  by rewrite H1, H2, Hn.
Qed.

Lemma same_name_same_kind_witness :
  let cfg := Config "mikrotik_" None "admin" "pw" "r1,r2" in
  let s1 := Sample "interface-rx-bytes" counter (VInt 100) (ether1_labels "r1") in
  let s2 := Sample "interface-rx-bytes" counter (VInt 100) (ether1_labels "r2") in
  tp s1 = tp s2.
Proof.
  intros cfg s1 s2.
  apply (same_name_same_kind cfg (device_with [ether1] [] [] [] []) "r1" fresh
           cfg (device_with [ether1] [gigabit_port] [] [] []) "r2" fresh s1 s2).
  - vm_compute. left.
  - vm_compute. left.
  - reflexivity.
Defined.

(** X6. Whatever way the samples of any number of runs arrive merged, the
    kind of every value line's sample is the kind on the type-declaration
    line of its name. *)
Theorem merged_output_declares_each_kind (merged : list sample) s :
  Forall produced merged → s ∈ merged →
  TypeLine (name s) (tp s) ∈ wrap_lines merged.
Proof.
  intros Hall Hs.
  destruct (wrap_from_first merged ∅ (name s)) as (pre & k & post & Heq & _).
  { apply not_elem_of_empty. }
  { by apply list_elem_of_fmap_2. }
  destruct (wrap_from_type_line_next merged ∅ pre (name s) k post Heq)
    as (s' & post' & -> & Hn & Hk).
  assert (s' ∈ merged) as Hs'.
  { rewrite <- (value_lines_wrap_from merged ∅), Heq. unfold value_lines.
    rewrite omap_app. apply elem_of_app. right. simpl. left. }
  unfold wrap_lines. rewrite Heq. apply elem_of_app. right.
  rewrite Forall_forall in Hall.
  rewrite (produced_kind s), <- Hn, <- (produced_kind s'), Hk by auto. left.
Qed.

Lemma merged_output_declares_each_kind_witness :
  let s1 := Sample "interface-rx-bytes" counter (VInt 100) (ether1_labels "r1") in
  let s2 := Sample "interface-rx-bytes" counter (VInt 100) (ether1_labels "r2") in
  TypeLine "interface-rx-bytes" counter ∈ wrap_lines [s1; s2].
Proof.
  intros s1 s2.
  apply (merged_output_declares_each_kind [s1; s2] s2).
  - repeat constructor.
    + exists (Config "mikrotik_" None "admin" "pw" "r1,r2"),
        (device_with [ether1] [] [] [] []), "r1", fresh. vm_compute. left.
    + exists (Config "mikrotik_" None "admin" "pw" "r1,r2"),
        (device_with [ether1] [] [] [] []), "r2", fresh. vm_compute. left.
  - right. left.
Defined.

(** ** The record loop *)

Lemma for_records_marker pre resp tag obj rest body :
  no_marker pre → is_marker resp = true →
  for_records (pre ++ (resp, tag, obj) :: rest)%list body = for_records pre body.
Proof.
  intros Hpre Hm. induction pre as [|[[r t] o] pre IH]; simpl.
  - by rewrite Hm.
  - apply Forall_cons in Hpre as [Hr Hpre]. simpl in Hr. rewrite Hr.
    by rewrite IH.
Qed.

(** X7. The record loop ends at the first [!done] or [!trap] reply: the
    replies after it, and whatever that reply itself carries, change nothing
    of what the loop does. *)
Theorem record_loop_ends_at_marker pre resp tag obj rest body :
  no_marker pre → resp = "!done" ∨ resp = "!trap" →
  for_records (pre ++ (resp, tag, obj) :: rest)%list body = for_records pre body.
Proof.
  intros Hpre Hm. apply for_records_marker; [done|]. by destruct Hm as [-> | ->].
Qed.

Lemma record_loop_ends_at_marker_witness :
  for_records ([re_ ether1] ++ ("!trap", EmptyString, sfp1) :: [re_ gigabit_port])%list
              (interface_record "r1")
  = for_records [re_ ether1] (interface_record "r1").
Proof.
  apply (record_loop_ends_at_marker [re_ ether1] "!trap" EmptyString sfp1
           [re_ gigabit_port] (interface_record "r1")).
  - repeat constructor.
  - by right.
Defined.

(** ** What can go wrong in a record *)

Ltac find_missing :=
  first [ apply Exists_cons_hd; split; [eassumption|reflexivity]
        | apply Exists_cons_tl; find_missing ].

(** X8. An interface record either completes, and then it has all seven
    mandatory fields and a [tx-byte] that [int] accepts, or it raises: the
    [KeyError] of a mandatory field it lacks, or the error of [int] on its
    [tx-byte].  Missing error and drop counts never make it fail. *)
Theorem interface_record_outcome dev st target obj :
  match (drain dev (interface_record target obj) st).1.2 with
  | Returned _ =>
      Forall (λ k, is_Some (dict_get k obj)) interface_fields ∧
      ∃ v n, dict_get "tx-byte" obj = Some v ∧ py_int v = inr n
  | Raised e =>
      Exists (λ k, dict_get k obj = None ∧ e = KeyError (VStr k)) interface_fields
      ∨ ∃ v, dict_get "tx-byte" obj = Some v ∧ py_int v = inl e
  | Blocked => False
  end.
Proof.
  unfold interface_record, getitem, interface_fields.
  destruct (dict_get "name" obj) eqn:Hname; simpl; [|left; find_missing].
  destruct (dict_get "type" obj) eqn:Htype; simpl; [|left; find_missing].
  destruct (dict_get "rx-byte" obj) eqn:Hrxb; simpl; [|left; find_missing].
  destruct (dict_get "tx-byte" obj) as [txb|] eqn:Htxb; simpl; [|left; find_missing].
  destruct (dict_get "rx-packet" obj) eqn:Hrxp; simpl; [|left; find_missing].
  destruct (dict_get "tx-packet" obj) eqn:Htxp; simpl; [|left; find_missing].
  destruct (dict_get "rx-error" obj); simpl;
    [destruct (dict_get "tx-error" obj); simpl|].
  all: destruct (dict_get "rx-drop" obj); simpl;
    [destruct (dict_get "tx-drop" obj); simpl|].
  all: destruct (py_int txb) eqn:Hint; simpl; [by right; eexists|].
  all: destruct (dict_get "actual-mtu" obj) eqn:Hmtu; simpl; [|left; find_missing].
  all: split; [by repeat constructor|by eexists _, _].
Qed.

(** X9. A resource record that has the seven fields the source requires
    yields the sectors-written counter, the free-memory gauge, the bad-block
    counter if and only if that field is there, and last the version gauge of
    value 1 whose labels are host, version, cpu, cpu-count, board-name and
    architecture-name in this order. *)
Theorem resource_record_samples dev st target obj w f version cpu count board arch :
  dict_get "write-sect-total" obj = Some w → dict_get "free-memory" obj = Some f →
  dict_get "version" obj = Some version → dict_get "cpu" obj = Some cpu →
  dict_get "cpu-count" obj = Some count → dict_get "board-name" obj = Some board →
  dict_get "architecture-name" obj = Some arch →
  let host := [("host", VStr target)] in
  drain dev (resource_record target obj) st =
    (([ Sample "system-write-sect-total" counter w host;
        Sample "system-free-memory" gauge f host ]
      ++ match dict_get "bad-blocks" obj with
         | Some b => [Sample "system-bad-blocks" counter b host]
         | None => []
         end
      ++ [ Sample "system-version" gauge (VInt 1)
             [ ("host", VStr target); ("version", version); ("cpu", cpu);
               ("cpu-count", count); ("board-name", board);
               ("architecture-name", arch) ] ])%list,
     Returned tt, st).
Proof.
  intros Hw Hf Hv Hcpu Hcount Hboard Harch host.
  unfold resource_record, getitem. rewrite Hw, Hf. simpl.
  destruct (dict_get "bad-blocks" obj); simpl;
    unfold getitem; by rewrite Hv, Hcpu, Hcount, Hboard, Harch.
Qed.

Lemma resource_record_samples_witness :
  let host := [("host", VStr "r1")] in
  drain (device_with [] [] [] [] []) (resource_record "r1" hex_resources) fresh =
    ([ Sample "system-write-sect-total" counter (VStr "5120") host;
       Sample "system-free-memory" gauge (VStr "1000") host;
       Sample "system-bad-blocks" counter (VStr "0") host;
       Sample "system-version" gauge (VInt 1)
         [ ("host", VStr "r1"); ("version", VStr "6.49"); ("cpu", VStr "MIPS");
           ("cpu-count", VStr "1"); ("board-name", VStr "hEX");
           ("architecture-name", VStr "mmips") ] ],
     Returned tt, fresh).
Proof.
  exact (resource_record_samples (device_with [] [] [] [] []) fresh "r1" hex_resources
           _ _ _ _ _ _ _ eq_refl eq_refl eq_refl eq_refl eq_refl eq_refl eq_refl).
Defined.

Lemma float_of_string_error s e : float_of_string s = inl e → e = ValueError.
Proof.
  unfold float_of_string. repeat case_match; congruence.
Qed.

Lemma health_items_text dev st target items :
  Forall (λ reading : string * Py.value, is_text reading.2) items →
  drain dev (health_items target items) st
    = (map (health_sample target) items, Returned tt, st).
Proof.
  induction items as [|[key value] rest IH]; intros Hall; simpl; [done|].
  apply Forall_cons in Hall as [[s Hs] Hrest]. simpl in Hs. subst value.
  unfold health_sample. simpl.
  destruct (float_of_string s) as [e|x] eqn:E; simpl.
  - rewrite (float_of_string_error s e E). simpl. by rewrite (IH Hrest).
  - by rewrite (IH Hrest).
Qed.

(** X10. A health record whose readings are all text never fails: it yields
    exactly one gauge per reading, in the record's order, named after the
    reading's key; a reading that [float] accepts carries that number, any
    other carries 1 and the raw text as its [state] label. *)
Theorem health_record_one_gauge_per_reading dev st target obj :
  Forall (λ reading : string * Py.value, is_text reading.2) obj →
  drain dev (health_record target obj) st
    = (map (health_sample target) obj, Returned tt, st) ∧
  Forall2 (λ s reading, name s = "system-health-" ++ fst reading ∧ tp s = gauge)
          (map (health_sample target) obj) obj.
Proof.
  intros Hall. split; [by apply health_items_text|].
  clear Hall. induction obj as [|[key value] rest IH]; simpl; constructor; [|done].
  unfold health_sample. simpl. by destruct (py_float value).
Qed.

Lemma health_record_one_gauge_per_reading_witness :
  drain (device_with [] [] [] [] [])
        (health_record "r1" [("voltage", VStr "24.1"); ("fan-status", VStr "ok")]) fresh
    = (map (health_sample "r1") [("voltage", VStr "24.1"); ("fan-status", VStr "ok")],
       Returned tt, fresh).
Proof.
  apply (health_record_one_gauge_per_reading (device_with [] [] [] [] []) fresh "r1").
  repeat constructor; by eexists.
Defined.

Lemma py_float_error v e : py_float v = inl e → is_KeyError e = false.
Proof.
  destruct v as [s|z|f]; simpl.
  - by intros ->%float_of_string_error.
  - unfold float_of_int. by destruct (float_of_ratio _ _ _); intros [= <-].
  - done.
Qed.

(** X11. A power record with a numeric voltage and an integral current
    yields the voltage as a float, the current divided by 1000 (milliamps to
    amps), and the status gauge of value 1 whose labels end with the port's
    power status. *)
Theorem poe_record_converts_current dev st target obj port status v x c n y :
  dict_get "name" obj = Some port → dict_get "poe-out-status" obj = Some status →
  dict_get "poe-out-voltage" obj = Some v → py_float v = inr x →
  dict_get "poe-out-current" obj = Some c → py_int c = inr n →
  float_of_int n = inr y →
  let labels := [("host", VStr target); ("port", port)] in
  drain dev (poe_record target obj) st =
    ([ Sample "poe-out-voltage" gauge (VFloat x) labels;
       Sample "poe-out-current" gauge (VFloat (float_div_1000 y)) labels;
       Sample "poe-out-status" gauge (VInt 1)
         [("host", VStr target); ("port", port); ("status", status)] ],
     Returned tt, st).
Proof.
  intros Hname Hstatus Hv Hx Hc Hn Hy labels. unfold poe_record, getitem.
  rewrite Hname, Hstatus, Hv, Hc. simpl. rewrite Hx. simpl. rewrite Hn. simpl.
  by rewrite Hy.
Qed.

Lemma poe_record_converts_current_witness :
  ∃ x y,
    drain (device_with [] [] [] [] []) (poe_record "r1" powered_port) fresh =
      ([ Sample "poe-out-voltage" gauge (VFloat x)
           [("host", VStr "r1"); ("port", VStr "ether5")];
         Sample "poe-out-current" gauge (VFloat y)
           [("host", VStr "r1"); ("port", VStr "ether5")];
         Sample "poe-out-status" gauge (VInt 1)
           [("host", VStr "r1"); ("port", VStr "ether5");
            ("status", VStr "powered-on")] ],
       Returned tt, fresh)
    ∧ str (VFloat x) = "24.1" ∧ str (VFloat y) = "1.5".
Proof.
  exists (S754_finite false 6783546938726810 (-48)),
         (float_div_1000 (S754_finite false 6597069766656000 (-42))).
  split; [|split; vm_compute; reflexivity].
  refine (poe_record_converts_current (device_with [] [] [] [] []) fresh "r1"
            powered_port (VStr "ether5") (VStr "powered-on") (VStr "24.1") _
            (VStr "1500") 1500 _ eq_refl eq_refl eq_refl _ eq_refl eq_refl _);
    vm_compute; reflexivity.
Defined.

(** X12. In a power record only a missing voltage or current is forgiven.
    A voltage that [float] rejects makes the record raise that error before
    any sample; a current that [int] rejects makes it raise after the voltage
    gauge; and the error ends the record loop and all that follows. *)
Theorem poe_conversion_errors_are_hard dev st target obj port v :
  dict_get "name" obj = Some port → dict_get "poe-out-voltage" obj = Some v →
  (∀ e, py_float v = inl e →
     drain dev (poe_record target obj) st = ([], Raised e, st)) ∧
  (∀ x c e, py_float v = inr x →
     dict_get "poe-out-current" obj = Some c → py_int c = inl e →
     drain dev (poe_record target obj) st =
       ([Sample "poe-out-voltage" gauge (VFloat x)
           [("host", VStr target); ("port", port)]], Raised e, st)) ∧
  (∀ l e, drain dev (poe_record target obj) st = (l, Raised e, st) →
     ∀ resp tag rest B (k : unit → gen B), is_marker resp = false →
       drain dev (for_records ((resp, tag, obj) :: rest) (poe_record target) ≫= k) st
         = (l, Raised e, st)).
Proof.
  intros Hname Hv. split; [|split].
  - intros e He. unfold poe_record, getitem. rewrite Hname, Hv. simpl.
    rewrite He. simpl. by rewrite (py_float_error v e He).
  - intros x c e Hx Hc He. unfold poe_record, getitem.
    rewrite Hname, Hv, Hc. simpl. rewrite Hx. simpl. rewrite He. simpl.
    by rewrite (proj1 (py_int_error c e He)).
  - intros l e Hrun resp tag rest B k Hm. simpl. rewrite Hm.
    by do 2 apply drain_bind_raised.
Qed.

Lemma poe_conversion_errors_are_hard_witness :
  drain (device_with [] [] [] [] []) (poe_record "r1" voltage_word_port) fresh
    = ([], Raised ValueError, fresh).
Proof.
  exact (proj1 (poe_conversion_errors_are_hard (device_with [] [] [] [] []) fresh "r1"
                  voltage_word_port (VStr "ether5") (VStr "n/a") eq_refl eq_refl)
           ValueError eq_refl).
Defined.

(** X13. A monitor record either completes, and then it has its name and
    status, a rate that is absent or in the table and a module-presence
    field that is absent or an integer, and its last sample is the status
    gauge of value 1 labelled with the record's status; or it raises the
    [KeyError] of the missing name or status, the [KeyError] of a rate
    outside the table, or the error of [int] on the module-presence field. *)
Theorem monitor_record_outcome dev st target obj :
  match (drain dev (monitor_record target obj) st).1.2 with
  | Returned _ =>
      is_Some (dict_get "name" obj) ∧
      (∀ rate, dict_get "rate" obj = Some rate → is_Some (known_rate rate)) ∧
      (∀ v, dict_get "sfp-module-present" obj = Some v → ∃ n, py_int v = inr n) ∧
      ∃ status s,
        dict_get "status" obj = Some status ∧
        last (drain dev (monitor_record target obj) st).1.1 = Some s ∧
        name s = "interface-status" ∧ value s = VInt 1 ∧
        dict_get "status" (labels s) = Some status
  | Raised e =>
      (dict_get "name" obj = None ∧ e = KeyError (VStr "name")) ∨
      (∃ rate, dict_get "rate" obj = Some rate ∧ known_rate rate = None
               ∧ e = KeyError rate) ∨
      (dict_get "status" obj = None ∧ e = KeyError (VStr "status")) ∨
      (∃ v, dict_get "sfp-module-present" obj = Some v ∧ py_int v = inl e)
  | Blocked => False
  end.
Proof.
  unfold monitor_record, getitem, rate_lookup.
  destruct (dict_get "name" obj) as [port|] eqn:Hname; simpl; [|by left].
  destruct (dict_get "rate" obj) as [rate|] eqn:Hrate; simpl;
    [destruct (known_rate rate) as [bps|] eqn:Hk; simpl;
       [|by right; left; eexists]|].
  all: destruct (dict_get "sfp-vendor-name" obj); simpl.
  all: destruct (dict_get "sfp-vendor-part-number" obj); simpl.
  all: destruct (dict_get "sfp-temperature" obj); simpl.
  all: destruct (dict_get "sfp-tx-power" obj); simpl.
  all: destruct (dict_get "status" obj) as [status|] eqn:Hstatus; simpl;
    [|by right; right; left].
  all: destruct (dict_get "sfp-module-present" obj) as [present|] eqn:Hpresent; simpl.
  all: try (destruct (py_int present) as [e|n] eqn:Hint; simpl;
            [rewrite (proj1 (py_int_error present e Hint)); simpl;
             by right; right; right; eexists|]).
  all: split; [by eexists|].
  all: split; [intros ? [= <-]; rewrite ?Hk; by eauto|].
  all: split; [intros ? [= <-]; by eauto|].
  all: by eexists _, _.
Qed.

(** ** The run as a whole *)

Lemma drain_session_irrel {A} dev (g : gen A) : ∀ st st',
  session_free g → drain dev g st = ((drain dev g st').1, st).
Proof.
  induction g as [a|e|s k IH| | | |]; simpl; intros st st' Hg; try done.
  rewrite (IH None st st' (Hg None)).
  by destruct (drain dev (k None) st') as [[l o] st''].
Qed.

Lemma drain_battery {B} dev w body (k : unit → gen B) st :
  (∀ obj, session_free (body obj)) →
  drain dev (for_records (dev w) body ≫= k) st =
  match (drain dev (for_records (dev w) body) fresh).1 with
  | (l, Returned a) =>
      let '(l', o, st') := drain dev (k a) st in ((l ++ l')%list, o, st')
  | (l, Raised e) => (l, Raised e, st)
  | (l, Blocked) => (l, Blocked, st)
  end.
Proof.
  intros Hb. rewrite drain_bind.
  rewrite (drain_session_irrel dev _ st fresh) by by apply session_free_for_records.
  by destruct (drain dev _ fresh).1 as [l [a|e|]].
Qed.

(** X14. A run against any device connects once, to port 8728 with the
    configured user and password, and then works through the five queries
    in their fixed order, each record loop reading the device's answer to
    its own query: the samples are those of the loops one after the other up
    to the first loop that raises, that loop's error is the run's error, no
    answer is left unread, and the session is closed exactly when all five
    loops returned. *)
Theorem scrape_runs_the_batteries_in_order cfg dev target :
  drain dev (scrape_mikrotik cfg target) fresh =
  let r := run_batteries dev (batteries target) in
  (r.1, r.2,
   Session [(target, 8728, MIKROTIK_USER cfg, MIKROTIK_PASSWORD cfg)] []
           (is_returned r.2)).
Proof.
  unfold scrape_mikrotik, batteries. simpl.
  rewrite drain_battery by apply session_free_interface_record.
  destruct (drain dev (for_records _ (interface_record target)) fresh).1
    as [l1 [[]|e|]]; [simpl|done..].
  rewrite drain_battery by apply session_free_monitor_record.
  destruct (drain dev (for_records _ (monitor_record target)) fresh).1
    as [l2 [[]|e|]]; [simpl|done..].
  rewrite drain_battery by apply session_free_poe_record.
  destruct (drain dev (for_records _ (poe_record target)) fresh).1
    as [l3 [[]|e|]]; [simpl|done..].
  rewrite drain_battery by apply session_free_resource_record.
  destruct (drain dev (for_records _ (resource_record target)) fresh).1
    as [l4 [[]|e|]]; [simpl|done..].
  rewrite drain_battery by apply session_free_health_record.
  destruct (drain dev (for_records _ (health_record target)) fresh).1
    as [l5 [[]|e|]]; [simpl|done..].
  by rewrite !app_nil_r.
Qed.

(** X15. A resource record either completes, and then it has the
    sectors-written and free-memory fields and all five fields of the version
    gauge, or it raises the [KeyError] of one of these seven that it lacks;
    a missing bad-block count never makes it fail. *)
Theorem resource_record_outcome dev st target obj :
  let required := ["write-sect-total"; "free-memory"; "version"; "cpu";
                   "cpu-count"; "board-name"; "architecture-name"] in
  match (drain dev (resource_record target obj) st).1.2 with
  | Returned _ => Forall (λ k, is_Some (dict_get k obj)) required
  | Raised e =>
      Exists (λ k, dict_get k obj = None ∧ e = KeyError (VStr k)) required
  | Blocked => False
  end.
Proof.
  unfold resource_record, getitem.
  destruct (dict_get "write-sect-total" obj) eqn:Hw; simpl; [|find_missing].
  destruct (dict_get "free-memory" obj) eqn:Hf; simpl; [|find_missing].
  destruct (dict_get "bad-blocks" obj); simpl; unfold getitem.
  all: destruct (dict_get "version" obj) eqn:Hv; simpl; [|find_missing].
  all: destruct (dict_get "cpu" obj) eqn:Hcpu; simpl; [|find_missing].
  all: destruct (dict_get "cpu-count" obj) eqn:Hcount; simpl; [|find_missing].
  all: destruct (dict_get "board-name" obj) eqn:Hboard; simpl; [|find_missing].
  all: destruct (dict_get "architecture-name" obj) eqn:Harch; simpl; [|find_missing].
  all: by repeat constructor.
Qed.

(** ** Start of the process and the targets *)

Lemma truthy_Some o : truthy o = true → ∃ s, o = Some s ∧ s ≠ EmptyString.
Proof.
  destruct o as [s|]; simpl; [|done]. intros H%negb_true_iff%String.eqb_neq.
  by exists s.
Qed.

(** X16. The process starts exactly when [MIKROTIK_USER],
    [MIKROTIK_PASSWORD] and [TARGETS] are all set to non-empty values; then
    the configuration holds these values, the bearer token as set (or none)
    and the prefix as set, [mikrotik_] when unset.  Otherwise it stops with
    the message of the first of the three, in that order, that is unset or
    empty. *)
Theorem startup_needs_user_password_targets environ :
  let user := dict_get "MIKROTIK_USER" environ in
  let password := dict_get "MIKROTIK_PASSWORD" environ in
  let targets := dict_get "TARGETS" environ in
  match startup environ with
  | inr cfg =>
      user = Some (MIKROTIK_USER cfg) ∧ MIKROTIK_USER cfg ≠ EmptyString ∧
      password = Some (MIKROTIK_PASSWORD cfg) ∧ MIKROTIK_PASSWORD cfg ≠ EmptyString ∧
      targets = Some (TARGETS cfg) ∧ TARGETS cfg ≠ EmptyString ∧
      PROMETHEUS_BEARER_TOKEN cfg = dict_get "PROMETHEUS_BEARER_TOKEN" environ ∧
      PREFIX cfg = default "mikrotik_" (dict_get "PROMETHEUS_PREFIX" environ)
  | inl message =>
      (truthy user = false ∧ message = "MIKROTIK_USER not specified") ∨
      (truthy user = true ∧ truthy password = false
       ∧ message = "MIKROTIK_PASSWORD not specified") ∨
      (truthy user = true ∧ truthy password = true ∧ truthy targets = false
       ∧ message = "TARGETS not specified")
  end.
Proof.
  intros user password targets. unfold startup, getenv.
  fold user password targets.
  replace (match user with Some v => Some v | None => None end) with user
    by by destruct user.
  replace (match password with Some v => Some v | None => None end) with password
    by by destruct password.
  replace (match targets with Some v => Some v | None => None end) with targets
    by by destruct targets.
  destruct (truthy user) eqn:Hu; simpl; [|by left].
  destruct (truthy password) eqn:Hp; simpl; [|by right; left].
  destruct (truthy targets) eqn:Ht; simpl; [|by right; right].
  apply truthy_Some in Hu as (u & -> & ?), Hp as (p & -> & ?), Ht as (t & -> & ?).
  simpl. repeat split; try done.
  - by destruct (dict_get "PROMETHEUS_BEARER_TOKEN" environ).
  - by destruct (dict_get "PROMETHEUS_PREFIX" environ).
Qed.

Lemma split_on_nonempty sep s : split_on sep s ≠ [].
Proof.
  destruct s as [|c r]; simpl; [done|].
  destruct (c =? sep)%char; [done|]. by destruct (split_on sep r).
Qed.

Lemma concat_cons sep x xs :
  xs ≠ [] → String.concat sep (x :: xs) = x ++ sep ++ String.concat sep xs.
Proof. by destruct xs. Qed.

Lemma concat_split_on sep s :
  String.concat (String sep EmptyString) (split_on sep s) = s.
Proof.
  induction s as [|c r IH]; simpl; [done|].
  destruct (Ascii.eqb_spec c sep) as [->|Hne].
  - rewrite concat_cons by apply split_on_nonempty. by rewrite IH.
  - pose proof (split_on_nonempty sep r) as Hr.
    destruct (split_on sep r) as [|h [|h' t]]; [done|..].
    + simpl in *. by rewrite IH.
    + rewrite concat_cons by done. rewrite concat_cons in IH by done.
      by rewrite <- IH.
Qed.

Lemma split_on_pieces sep s :
  Forall (λ t, contains_char sep t = false) (split_on sep s).
Proof.
  induction s as [|c r IH]; simpl; [by repeat constructor|].
  destruct (Ascii.eqb_spec c sep) as [->|Hne]; [by constructor|].
  pose proof (split_on_nonempty sep r) as Hr.
  destruct (split_on sep r) as [|h t]; [done|].
  apply Forall_cons in IH as [Hh Ht]. constructor; [|done].
  simpl. rewrite Hh. by apply Ascii.eqb_neq in Hne as ->.
Qed.

Lemma split_on_length sep s :
  length (split_on sep s) = S (count_char sep s).
Proof.
  induction s as [|c r IH]; simpl; [done|].
  destruct (c =? sep)%char; simpl; [by rewrite IH|].
  pose proof (split_on_nonempty sep r) as Hr.
  by destruct (split_on sep r).
Qed.

(** X17. A request that passes the token check gets one sample source per
    piece of [TARGETS] between commas: the pieces joined by commas are
    [TARGETS] again, no piece contains a comma, and there is one piece more
    than there are commas, so that an empty piece (two commas in a row, a
    comma at either end) gets a source of its own. *)
Theorem one_source_per_target cfg token :
  truthy (PROMETHEUS_BEARER_TOKEN cfg) = false
  ∨ token = PROMETHEUS_BEARER_TOKEN cfg →
  ∃ targets,
    view_export cfg token = Stream "text/plain" (map (scrape_mikrotik cfg) targets) ∧
    String.concat "," targets = TARGETS cfg ∧
    Forall (λ t, contains_char "," t = false) targets ∧
    length targets = S (count_char "," (TARGETS cfg)).
Proof.
  intros Hok. exists (split_on "," (TARGETS cfg)). split.
  - unfold view_export. destruct Hok as [E | E]; rewrite E; [done|].
    by rewrite (proj2 (token_differs_false _ _) eq_refl), andb_false_r.
  - split; [apply concat_split_on|].
    split; [apply split_on_pieces|apply split_on_length].
Qed.

Lemma one_source_per_target_witness :
  let cfg := Config "mikrotik_" None "admin" "pw" "r1,,r2" in
  ∃ targets,
    view_export cfg (Some "any")
      = Stream "text/plain" (map (scrape_mikrotik cfg) targets) ∧
    length targets = 3%nat.
Proof.
  intros cfg.
  destruct (one_source_per_target cfg (Some "any") (or_introl eq_refl))
    as (targets & H & _ & _ & Hlen).
  by exists targets.
Defined.

(** X18. From the environment to the answer: once the process has started,
    a request is refused exactly when the environment sets a non-empty
    [PROMETHEUS_BEARER_TOKEN] and the request's token is missing or another
    string; every other request gets the streamed response. *)
Theorem forbidden_iff_token_set_and_differs environ cfg token :
  startup environ = inr cfg →
  (view_export cfg token = Forbidden "Invalid bearer token"
   ↔ ∃ t, dict_get "PROMETHEUS_BEARER_TOKEN" environ = Some t
          ∧ t ≠ EmptyString ∧ token ≠ Some t) ∧
  (view_export cfg token = Forbidden "Invalid bearer token"
   ∨ view_export cfg token
       = Stream "text/plain" (map (scrape_mikrotik cfg) (split_on "," (TARGETS cfg)))).
Proof.
  intros Hstart.
  assert (PROMETHEUS_BEARER_TOKEN cfg = dict_get "PROMETHEUS_BEARER_TOKEN" environ)
    as Htok.
  { revert Hstart. unfold startup, getenv.
    repeat (case_match; simpl; try done). all: by intros [= <-]. }
  unfold view_export. rewrite Htok.
  destruct (dict_get "PROMETHEUS_BEARER_TOKEN" environ) as [t|]; simpl.
  - destruct (String.eqb_spec t EmptyString) as [->|Hne]; simpl.
    + split; [|by right]. split; [done|]. by intros (t & [= <-] & ? & _).
    + destruct (token_differs token (Some t)) eqn:E.
      * split; [|by left]. split; [|done]. intros _. exists t.
        split; [done|]. split; [done|]. intros ->.
        by rewrite (proj2 (token_differs_false _ _) eq_refl) in E.
      * split; [|by right]. split; [done|].
        intros (t' & [= <-] & _ & Hdiff). by apply token_differs_false in E.
  - split; [|by right]. split; [done|]. by intros (t & ? & _).
Qed.

Lemma forbidden_iff_token_set_and_differs_witness :
  let environ := [ ("MIKROTIK_USER", "admin"); ("MIKROTIK_PASSWORD", "pw");
                   ("TARGETS", "r1,r2"); ("PROMETHEUS_BEARER_TOKEN", "s3cret") ] in
  let cfg := Config "mikrotik_" (Some "s3cret") "admin" "pw" "r1,r2" in
  startup environ = inr cfg ∧
  view_export cfg (Some "guess") = Forbidden "Invalid bearer token".
Proof.
  intros environ cfg. split; [reflexivity|].
  apply (proj1 (forbidden_iff_token_set_and_differs environ cfg (Some "guess") eq_refl)).
  exists "s3cret". by repeat split.
Defined.

Lemma size_names_seen (n : string) (X seen : gset string) :
  n ∈ seen → size (({[n]} ∪ X) ∖ seen) = size (X ∖ seen).
Proof.
  intros Hin. f_equal. apply set_eq. intros x.
  rewrite !elem_of_difference, elem_of_union, elem_of_singleton.
  split; [|tauto]. intros [[->|?] ?]; [done|by split].
Qed.

Lemma size_names_new (n : string) (X seen : gset string) :
  n ∉ seen → size (({[n]} ∪ X) ∖ seen) = S (size (X ∖ ({[n]} ∪ seen))).
Proof.
  intros Hin.
  assert (({[n]} ∪ X) ∖ seen = {[n]} ∪ X ∖ ({[n]} ∪ seen)) as ->.
  { apply set_eq. intros x.
    rewrite !elem_of_union, !elem_of_difference, !elem_of_union, elem_of_singleton.
    destruct (decide (x = n)) as [->|Hne]; tauto. }
  rewrite size_union.
  - by rewrite size_singleton.
  - intros x. rewrite elem_of_singleton, elem_of_difference, elem_of_union,
      elem_of_singleton. tauto.
Qed.

Lemma wrap_from_cons seen s rest :
  wrap_from seen (s :: rest) =
  if decide (name s ∈ seen) then ValueLine s :: wrap_from seen rest
  else TypeLine (name s) (tp s) :: ValueLine s
         :: wrap_from ({[name s]} ∪ seen) rest.
Proof. reflexivity. Qed.

Lemma wrap_from_length i : ∀ seen : gset string,
  length (wrap_from seen i)
  = (length i + size (list_to_set (map name i) ∖ seen : gset string))%nat.
Proof.
  induction i as [|s rest IH]; intros seen.
  - change (0%nat = (0 + size ((∅ : gset string) ∖ seen))%nat).
    by rewrite empty_difference_L, size_empty.
  - rewrite wrap_from_cons.
    change (map name (s :: rest)) with (name s :: map name rest).
    rewrite list_to_set_cons. case_decide as Hin; cbn [length]; rewrite IH.
    + rewrite size_names_seen by done. lia.
    + rewrite size_names_new by done. lia.
Qed.

(** X19. The output has one line per sample received and one more for each
    distinct metric name among them. *)
Theorem wrap_line_count (cfg : config) (i : list sample) :
  length (wrap cfg i)
  = (length i + size (list_to_set (map name i) : gset string))%nat.
Proof.
  unfold wrap, wrap_lines. rewrite length_map, wrap_from_length.
  by rewrite difference_empty_L.
Qed.

(** X20. When a monitor record completes, the labels of its status gauge
    are the target as [host], the record's name as [port], its status, and
    each of the vendor name, the vendor part number and the module presence
    exactly when the record has that field: the vendor fields as they came,
    the module presence as the integer [int] read; a missing one of the three
    leaves the other two in place. *)
Theorem monitor_status_gauge_labels dev st target obj l s :
  drain dev (monitor_record target obj) st = (l, Returned tt, st) →
  last l = Some s →
  dict_get "host" (labels s) = Some (VStr target) ∧
  dict_get "port" (labels s) = dict_get "name" obj ∧
  dict_get "status" (labels s) = dict_get "status" obj ∧
  dict_get "sfp-vendor-name" (labels s) = dict_get "sfp-vendor-name" obj ∧
  dict_get "sfp-vendor-part-number" (labels s)
    = dict_get "sfp-vendor-part-number" obj ∧
  match dict_get "sfp-module-present" obj with
  | Some v => ∃ n, py_int v = inr n
                   ∧ dict_get "sfp-module-present" (labels s) = Some (VInt n)
  | None => dict_get "sfp-module-present" (labels s) = None
  end.
Proof.
  unfold monitor_record, getitem, rate_lookup.
  destruct (dict_get "name" obj) as [port|]; simpl; [|done].
  destruct (dict_get "rate" obj) as [rate|]; simpl;
    [destruct (known_rate rate) as [bps|]; simpl; [|done]|].
  all: destruct (dict_get "sfp-vendor-name" obj); simpl.
  all: destruct (dict_get "sfp-vendor-part-number" obj); simpl.
  all: destruct (dict_get "sfp-temperature" obj); simpl.
  all: destruct (dict_get "sfp-tx-power" obj); simpl.
  all: destruct (dict_get "status" obj) as [status|]; simpl; [|done].
  all: destruct (dict_get "sfp-module-present" obj) as [present|]; simpl.
  all: try (destruct (py_int present) as [e|n] eqn:Hint; simpl;
            [rewrite (proj1 (py_int_error present e Hint)); by simpl|]).
  all: intros [= <-] [= <-]; repeat split; by eauto.
Qed.

Lemma monitor_status_gauge_labels_witness :
  let s := Sample "interface-status" gauge (VInt 1)
             [ ("host", VStr "r1"); ("port", VStr "sfp1");
               ("sfp-vendor-name", VStr "Acme"); ("status", VStr "link-ok");
               ("sfp-module-present", VInt 1) ] in
  drain (device_with [] [] [] [] []) (monitor_record "r1" vendor_port) fresh
    = ([s], Returned tt, fresh) ∧
  dict_get "sfp-vendor-name" (labels s) = Some (VStr "Acme") ∧
  dict_get "sfp-vendor-part-number" (labels s) = None.
Proof.
  intros s.
  assert (H : drain (device_with [] [] [] [] []) (monitor_record "r1" vendor_port) fresh
              = ([s], Returned tt, fresh)) by reflexivity.
  split; [exact H|].
  destruct (monitor_status_gauge_labels (device_with [] [] [] [] []) fresh "r1"
              vendor_port [s] s H eq_refl) as (_ & _ & _ & Hv & Hp & _).
  split; [exact Hv|exact Hp].
Defined.

(** X21. Over an answer without marker in which every record completes, a
    record loop whose body leaves the session alone (as all five bodies of
    the source do) yields the samples of the first record, then those of the
    second, and so on in the answer's order, and returns. *)
Theorem record_loop_keeps_record_order dev body res st :
  (∀ obj, session_free (body obj)) →
  no_marker res →
  Forall (λ r : reply, (drain dev (body r.2) st).1.2 = Returned tt) res →
  drain dev (for_records res body) st
    = (concat (map (λ r : reply, (drain dev (body r.2) st).1.1) res),
       Returned tt, st).
Proof.
  intros Hfree. induction res as [|[[resp tag] obj] rest IH];
    intros Hm Hret; simpl; [done|].
  apply Forall_cons in Hm as [Hr Hm]. apply Forall_cons in Hret as [Ho Hret].
  simpl in Hr, Ho. rewrite Hr, drain_bind.
  pose proof (proj1 (drain_session_free dev (body obj) st (Hfree obj))) as Hst.
  destruct (drain dev (body obj) st) as [[l o] st']. simpl in *. subst.
  by rewrite (IH Hm Hret).
Qed.

Lemma record_loop_keeps_record_order_witness :
  drain (device_with [] [] [] [] [])
        (for_records [re_ ether1; re_ tx_error_only] (interface_record "r1")) fresh
    = ((ether1_samples "r1" ++ ether1_samples "r1")%list, Returned tt, fresh).
Proof.
  apply (record_loop_keeps_record_order (device_with [] [] [] [] [])
           (interface_record "r1") [re_ ether1; re_ tx_error_only] fresh).
  - apply session_free_interface_record.
  - repeat constructor.
  - repeat constructor.
Defined.

(** * Declarations, optional fields and rendered values over whole runs *)

(** ** One declaration per name *)

Lemma wrap_from_has_names i : ∀ (seen : gset string) n,
  n ∈ map name i → n ∈ map line_name (wrap_from seen i).
Proof.
  induction i as [|s rest IH]; intros seen n; simpl; [done|].
  rewrite elem_of_cons. intros [->|Hn]; case_decide; simpl; rewrite !elem_of_cons; auto.
Qed.

Lemma first_named (i : list sample) n :
  n ∈ map name i →
  ∃ before s after,
    i = (before ++ s :: after)%list ∧ name s = n ∧ ∀ s', s' ∈ before → name s' ≠ n.
Proof.
  induction i as [|s rest IH]; simpl; [by intros ?%not_elem_of_nil|].
  destruct (decide (name s = n)) as [E|Hne].
  - intros _. exists [], s, rest. split; [done|]. split; [done|].
    by intros s' ?%not_elem_of_nil.
  - intros [?|Hin]%elem_of_cons; [done|].
    destruct (IH Hin) as (before & s0 & after & -> & Hs0 & Hb).
    exists (s :: before), s0, after. split; [done|]. split; [done|].
    intros s' [->|?]%elem_of_cons; [done|by apply Hb].
Qed.

Lemma value_line_in_wrap_from i : ∀ (seen : gset string) s,
  s ∈ i → ValueLine s ∈ wrap_from seen i.
Proof.
  induction i as [|s0 rest IH]; intros seen s; [by intros ?%not_elem_of_nil|].
  rewrite wrap_from_cons.
  intros [->|Hs]%elem_of_cons; case_decide; rewrite ?elem_of_cons; auto.
Qed.

(** C1. Whatever samples one request's merged stream delivers to [wrap],
    the metric names in its output are the names of the samples received,
    and for every such name the output holds exactly one type-declaration
    line.  That line is rendered [# TYPE <prefix><name> <kind>] with the kind
    of the first sample received under the name; it is immediately followed
    by that sample's value line; the lines before it are the lines of the
    samples received earlier, none of which is about the name; and among the
    lines after it, which carry the samples received later, none declares
    the name again.  The set of declared names starts empty with each call
    of [wrap], that is, with each request. *)
Theorem wrap_declares_once_before_use (cfg : config) (i : list sample) (n : string) :
  (n ∈ map line_name (wrap_lines i) ↔ n ∈ map name i) ∧
  (n ∈ map name i →
   ∃ before s after pre post,
     i = (before ++ s :: after)%list ∧ name s = n ∧
     (∀ s', s' ∈ before → name s' ≠ n) ∧
     wrap_lines i = (pre ++ TypeLine n (tp s) :: ValueLine s :: post)%list ∧
     pre = wrap_lines before ∧
     value_lines pre = before ∧ value_lines post = after ∧
     (∀ l, l ∈ pre → line_name l ≠ n) ∧
     (∀ l, l ∈ post → declares n l = false) ∧
     count_decls n (wrap_lines i) = 1%nat ∧
     wrap cfg i = (map (render cfg) pre
                   ++ ("# TYPE " ++ (PREFIX cfg ++ n) ++ " " ++ str_kind (tp s))%string
                   :: render cfg (ValueLine s)
                   :: map (render cfg) post)%list).
Proof.
  split.
  { split; [apply wrap_from_names|apply wrap_from_has_names]. }
  intros Hin.
  destruct (first_named i n Hin) as (before & s & after & -> & <- & Hb).
  set (seen := list_to_set (map name before) ∪ (∅ : gset string)).
  assert (Hnew : name s ∉ seen).
  { unfold seen. rewrite elem_of_union, elem_of_list_to_set.
    intros [(s' & E & Hs')%list_elem_of_fmap|[]%not_elem_of_empty].
    by apply (Hb s'). }
  assert (Heq : wrap_lines (before ++ s :: after)%list
                = (wrap_lines before ++ TypeLine (name s) (tp s) :: ValueLine s
                     :: wrap_from ({[name s]} ∪ seen) after)%list).
  { unfold wrap_lines. rewrite wrap_from_app, wrap_from_cons.
    fold seen. by rewrite decide_False. }
  assert (Hpre : ∀ l, l ∈ wrap_lines before → line_name l ≠ name s).
  { intros l Hl E.
    assert (name s ∈ map name before) as (s' & E' & Hs')%list_elem_of_fmap.
    { apply (wrap_from_names before ∅). rewrite <- E. by apply list_elem_of_fmap_2. }
    by apply (Hb s'). }
  assert (Hpost : ∀ l, l ∈ wrap_from ({[name s]} ∪ seen) after
                       → declares (name s) l = false).
  { intros l Hl. eapply wrap_from_seen; [|done].
    apply elem_of_union_l, elem_of_singleton_2. done. }
  exists before, s, after, (wrap_lines before), (wrap_from ({[name s]} ∪ seen) after).
  split; [done|]. split; [done|]. split; [done|]. split; [done|]. split; [done|].
  split; [apply value_lines_wrap_from|]. split; [apply value_lines_wrap_from|].
  split; [done|]. split; [done|]. split.
  - unfold count_decls. rewrite Heq, List.filter_app. simpl.
    rewrite String.eqb_refl, !filter_declares_none; [done|done|].
    intros l Hl. destruct (declares (name s) l) eqn:E; [|done].
    by apply declares_line_name, Hpre in E.
  - unfold wrap. rewrite Heq, map_app. done.
Qed.

Lemma wrap_declares_once_before_use_witness :
  let cfg := Config "mikrotik_" None "admin" "secret" "r1" in
  let i := [Sample "a" counter (VInt 1) []; Sample "b" gauge (VInt 2) [];
            Sample "a" counter (VInt 3) []] in
  "b" ∈ map name i ∧
  ∃ s pre post,
    name s = "b" ∧
    wrap_lines i = (pre ++ TypeLine "b" (tp s) :: ValueLine s :: post)%list ∧
    count_decls "b" (wrap_lines i) = 1%nat.
Proof.
  intros cfg i.
  assert (H : "b" ∈ map name i) by (vm_compute; right; left).
  split; [exact H|].
  destruct (proj2 (wrap_declares_once_before_use cfg i "b") H)
    as (before & s & after & pre & post & _ & Hs & _ & Heq & _ & _ & _ & _ & _ & Hc & _).
  by exists s, pre, post.
Defined.

(** ** Optional fields, field by field *)

(** read the fields of [obj'] that it shares with [obj] from [obj] *)
Ltac shared_fields :=
  repeat match goal with
         | H : ∀ k', k' ≠ _ → dict_get k' ?o' = dict_get k' _
           |- context [dict_get ?k ?o'] => rewrite (H k) by discriminate
         end.

Ltac pick_field Hin :=
  repeat (apply elem_of_cons in Hin as [Hin|Hin];
          [injection Hin as -> ->|]);
  [..|by apply not_elem_of_nil in Hin].

Ltac same_run := first [discriminate | intros [= <-]; reflexivity].

Lemma interface_record_without dev st target obj obj' k what l :
  without_field k obj obj' → (k, what) ∈ interface_optional →
  drain dev (interface_record target obj) st = (l, Returned tt, st) →
  drain dev (interface_record target obj') st = (lose what l, Returned tt, st).
Proof.
  intros [Hk Ho] Hin. revert l. unfold interface_optional in Hin. pick_field Hin.
  all: unfold interface_record, getitem; rewrite Hk; shared_fields.
  all: destruct (dict_get "name" obj); simpl; [|done].
  all: destruct (dict_get "type" obj); simpl; [|done].
  all: destruct (dict_get "rx-byte" obj); simpl; [|done].
  all: destruct (dict_get "tx-byte" obj) as [txb|]; simpl; [|done].
  all: destruct (dict_get "rx-packet" obj); simpl; [|done].
  all: destruct (dict_get "tx-packet" obj); simpl; [|done].
  all: destruct (dict_get "rx-error" obj); simpl.
  all: destruct (dict_get "tx-error" obj); simpl.
  all: destruct (dict_get "rx-drop" obj); simpl.
  all: destruct (dict_get "tx-drop" obj); simpl.
  all: destruct (py_int txb); simpl; [done|].
  all: destruct (dict_get "actual-mtu" obj); simpl; [|done].
  all: intros l; same_run.
Qed.

Lemma monitor_record_without dev st target obj obj' k what l :
  without_field k obj obj' → (k, what) ∈ monitor_optional →
  drain dev (monitor_record target obj) st = (l, Returned tt, st) →
  drain dev (monitor_record target obj') st = (lose what l, Returned tt, st).
Proof.
  intros [Hk Ho] Hin. revert l. unfold monitor_optional in Hin. pick_field Hin.
  all: unfold monitor_record, getitem, rate_lookup; rewrite Hk; shared_fields.
  all: destruct (dict_get "name" obj); simpl; [|done].
  all: destruct (dict_get "rate" obj) as [rate|]; simpl;
    [destruct (known_rate rate); simpl; [|done]|].
  all: destruct (dict_get "sfp-vendor-name" obj); simpl.
  all: destruct (dict_get "sfp-vendor-part-number" obj); simpl.
  all: destruct (dict_get "sfp-temperature" obj); simpl.
  all: destruct (dict_get "sfp-tx-power" obj); simpl.
  all: destruct (dict_get "status" obj); simpl; [|done].
  all: destruct (dict_get "sfp-module-present" obj) as [present|]; simpl.
  all: try (destruct (py_int present) as [e|n] eqn:Hint; simpl;
            [rewrite (proj1 (py_int_error present e Hint)); by simpl|]).
  all: intros l; same_run.
Qed.

Lemma poe_record_without dev st target obj obj' k what l :
  without_field k obj obj' → (k, what) ∈ poe_optional →
  drain dev (poe_record target obj) st = (l, Returned tt, st) →
  drain dev (poe_record target obj') st = (lose what l, Returned tt, st).
Proof.
  intros [Hk Ho] Hin. revert l. unfold poe_optional in Hin. pick_field Hin.
  all: unfold poe_record, getitem; rewrite Hk; shared_fields.
  all: destruct (dict_get "name" obj); simpl; [|done].
  all: destruct (dict_get "poe-out-voltage" obj) as [volts|]; simpl.
  all: try (destruct (py_float volts) as [e|x] eqn:Hv; simpl;
            [rewrite (py_float_error volts e Hv); by simpl|]).
  all: destruct (dict_get "poe-out-current" obj) as [amps|]; simpl.
  all: try (destruct (py_int amps) as [e|milli] eqn:Hc; simpl;
            [rewrite (proj1 (py_int_error amps e Hc)); by simpl|]).
  all: try (destruct (float_of_int milli) as [e|y] eqn:Hy; simpl;
            [revert Hy; unfold float_of_int;
             destruct (float_of_ratio _ _ _); intros [= <-]; by simpl|]).
  all: destruct (dict_get "poe-out-status" obj); simpl; [|done].
  all: intros l; same_run.
Qed.

Lemma resource_record_without dev st target obj obj' k what l :
  without_field k obj obj' → (k, what) ∈ resource_optional →
  drain dev (resource_record target obj) st = (l, Returned tt, st) →
  drain dev (resource_record target obj') st = (lose what l, Returned tt, st).
Proof.
  intros [Hk Ho] Hin. revert l. unfold resource_optional in Hin. pick_field Hin.
  all: unfold resource_record, getitem; simpl; unfold getitem;
    rewrite Hk; shared_fields.
  all: destruct (dict_get "write-sect-total" obj); simpl; [|done].
  all: destruct (dict_get "free-memory" obj); simpl; [|done].
  all: destruct (dict_get "bad-blocks" obj); simpl.
  all: destruct (dict_get "version" obj); simpl; [|done].
  all: destruct (dict_get "cpu" obj); simpl; [|done].
  all: destruct (dict_get "cpu-count" obj); simpl; [|done].
  all: destruct (dict_get "board-name" obj); simpl; [|done].
  all: destruct (dict_get "architecture-name" obj); simpl; [|done].
  all: intros l; same_run.
Qed.

(** C5, amended. A missing optional field never makes a record fail, and
    it costs the record's samples only this: a label field (the vendor
    name, the vendor part number, the module presence) costs that one label
    and nothing else; a sample field costs its own sample and the samples
    that follow it inside the same [try] block, and nothing outside that
    block, as the tables [interface_optional], [monitor_optional],
    [poe_optional] and [resource_optional] list them.  In particular an
    interface record with its mandatory fields yields its four counters,
    then the error pair and the drop pair as far as each block gets (nothing
    if the receive field is missing, the receive sample alone if only the
    transmit field is missing), then the running and MTU gauges; a power
    record with a numeric voltage and no current yields the voltage gauge
    and the status gauge; one without voltage yields the status gauge
    alone. *)
Theorem optional_field_skips_rest_of_try_block dev st target obj :
  (∀ k what obj' l, without_field k obj obj' →
     ((k, what) ∈ interface_optional →
      drain dev (interface_record target obj) st = (l, Returned tt, st) →
      drain dev (interface_record target obj') st = (lose what l, Returned tt, st)) ∧
     ((k, what) ∈ monitor_optional →
      drain dev (monitor_record target obj) st = (l, Returned tt, st) →
      drain dev (monitor_record target obj') st = (lose what l, Returned tt, st)) ∧
     ((k, what) ∈ poe_optional →
      drain dev (poe_record target obj) st = (l, Returned tt, st) →
      drain dev (poe_record target obj') st = (lose what l, Returned tt, st)) ∧
     ((k, what) ∈ resource_optional →
      drain dev (resource_record target obj) st = (l, Returned tt, st) →
      drain dev (resource_record target obj') st = (lose what l, Returned tt, st))) ∧
  (∀ port type rxb txb rxp txp mtu running,
     dict_get "name" obj = Some port → dict_get "type" obj = Some type →
     dict_get "rx-byte" obj = Some rxb → dict_get "tx-byte" obj = Some txb →
     dict_get "rx-packet" obj = Some rxp → dict_get "tx-packet" obj = Some txp →
     dict_get "actual-mtu" obj = Some mtu → py_int txb = inr running →
     let labels := [("host", VStr target); ("port", port); ("type", type)] in
     drain dev (interface_record target obj) st =
       (([ Sample "interface-rx-bytes" counter rxb labels;
           Sample "interface-tx-bytes" counter txb labels;
           Sample "interface-rx-packets" counter rxp labels;
           Sample "interface-tx-packets" counter txp labels ]
         ++ pair_group obj "rx-error" "interface-rx-errors"
                           "tx-error" "interface-tx-errors" labels
         ++ pair_group obj "rx-drop" "interface-rx-drops"
                           "tx-drop" "interface-tx-drops" labels
         ++ [ Sample "interface-running" gauge (VInt running) labels;
              Sample "interface-actual-mtu" gauge mtu labels ])%list,
        Returned tt, st)) ∧
  (∀ port status,
     dict_get "name" obj = Some port → dict_get "poe-out-status" obj = Some status →
     let labels := [("host", VStr target); ("port", port)] in
     let status_gauge :=
       Sample "poe-out-status" gauge (VInt 1) (dict_set "status" status labels) in
     (∀ v x, dict_get "poe-out-voltage" obj = Some v → py_float v = inr x →
             dict_get "poe-out-current" obj = None →
             drain dev (poe_record target obj) st =
               ([Sample "poe-out-voltage" gauge (VFloat x) labels; status_gauge],
                Returned tt, st)) ∧
     (dict_get "poe-out-voltage" obj = None →
      drain dev (poe_record target obj) st = ([status_gauge], Returned tt, st))).
Proof.
  split; [|split].
  - intros k what obj' l Hw. split; [|split; [|split]]; intros Hin Hrun.
    + by eapply interface_record_without.
    + by eapply monitor_record_without.
    + by eapply poe_record_without.
    + by eapply resource_record_without.
  - intros. by eapply interface_record_samples.
  - intros port status Hname Hstatus labels status_gauge. split.
    + intros. by eapply poe_record_voltage_only.
    + intros. by eapply poe_record_no_voltage.
Qed.

Lemma tx_error_only_without_rx_error :
  without_field "rx-error" both_errors tx_error_only.
Proof.
  split; [reflexivity|]. intros k' Hne%String.eqb_neq. simpl. by rewrite Hne.
Qed.

Lemma unbranded_port_without_vendor_name :
  without_field "sfp-vendor-name" branded_port unbranded_port.
Proof.
  split; [reflexivity|]. intros k' Hne%String.eqb_neq. simpl. by rewrite Hne.
Qed.

Lemma optional_field_skips_rest_of_try_block_witness :
  let dev := device_with [] [] [] [] [] in
  drain dev (interface_record "r1" tx_error_only) fresh
    = (ether1_samples "r1", Returned tt, fresh) ∧
  drain dev (monitor_record "r1" unbranded_port) fresh
    = ([ Sample "interface-sfp-temperature" gauge (VStr "41")
           [ ("host", VStr "r1"); ("port", VStr "sfp1");
             ("sfp-vendor-part-number", VStr "X-10") ];
         Sample "interface-status" gauge (VInt 1)
           [ ("host", VStr "r1"); ("port", VStr "sfp1");
             ("sfp-vendor-part-number", VStr "X-10"); ("status", VStr "link-ok") ] ],
       Returned tt, fresh) ∧
  ∃ x, py_float (VStr "24.1") = inr x ∧
    drain dev (poe_record "r1" voltage_only_port) fresh
      = ([ Sample "poe-out-voltage" gauge (VFloat x)
             [("host", VStr "r1"); ("port", VStr "ether1")];
           Sample "poe-out-status" gauge (VInt 1)
             [("host", VStr "r1"); ("port", VStr "ether1");
              ("status", VStr "powered-on")] ],
         Returned tt, fresh).
Proof.
  intros dev. split; [|split].
  - apply (proj1 (proj1 (optional_field_skips_rest_of_try_block dev fresh "r1"
                           both_errors)
                    "rx-error"
                    (LoseSamples ["interface-rx-errors"; "interface-tx-errors"])
                    tx_error_only
                    (drain dev (interface_record "r1" both_errors) fresh).1.1
                    tx_error_only_without_rx_error)).
    + left.
    + reflexivity.
  - apply (proj1 (proj2 (proj1 (optional_field_skips_rest_of_try_block dev fresh "r1"
                                  branded_port)
                           "sfp-vendor-name" (LoseLabel "sfp-vendor-name")
                           unbranded_port
                           (drain dev (monitor_record "r1" branded_port) fresh).1.1
                           unbranded_port_without_vendor_name))).
    + right. left.
    + reflexivity.
  - exists (S754_finite false 6783546938726810 (-48)).
    split; [vm_compute; reflexivity|].
    refine (proj1 (proj2 (proj2 (optional_field_skips_rest_of_try_block
                     dev fresh "r1" voltage_only_port))
                    (VStr "ether1") (VStr "powered-on") eq_refl eq_refl)
              (VStr "24.1") _ eq_refl _ eq_refl).
    vm_compute; reflexivity.
Defined.

(** ** Where values come from and how they are rendered *)

(** *** What a body learns from the calls it makes *)

Lemma yields_ok_getitem_eq P obj k :
  yields_ok P (λ v, dict_get k obj = Some v) (getitem obj k).
Proof. unfold getitem. by destruct (dict_get k obj). Qed.

Lemma yields_ok_lift_eq {A} P (r : exn + A) : yields_ok P (λ a, r = inr a) (lift r).
Proof. by destruct r. Qed.

Lemma yields_ok_rate_lookup_eq P rate :
  yields_ok P (λ bps, known_rate rate = Some bps) (rate_lookup rate).
Proof. unfold rate_lookup. by destruct (known_rate rate). Qed.

Ltac from_step :=
  lazymatch goal with
  | |- yields_ok _ _ (getitem _ _ ≫= _) =>
      eapply yields_ok_bind; [apply yields_ok_getitem_eq|intros ? ?]
  | |- yields_ok _ _ (lift _ ≫= _) =>
      eapply yields_ok_bind; [apply yields_ok_lift_eq|intros ? ?]
  | |- yields_ok _ _ (rate_lookup _ ≫= _) =>
      eapply yields_ok_bind; [apply yields_ok_rate_lookup_eq|intros ? ?]
  | |- yields_ok _ _ (yield_ _ _ _ _ ≫= _) =>
      eapply yields_ok_bind; [apply yields_ok_yield|intros ? _]
  | |- yields_ok _ _ (yield_ _ _ _ _) => apply yields_ok_yield
  | |- yields_ok _ _ (mret _) => exact I
  | |- yields_ok _ _ (Ret _) => exact I
  | |- yields_ok _ (λ _, True) (try_except _ _ _) =>
      apply yields_ok_try_except
  | |- yields_ok _ _ (try_except _ _ _ ≫= _) =>
      eapply (yields_ok_bind _ (λ _, True)); [|intros ? _]
  | |- yields_ok _ (λ _, True) (try_except_else _ _ _ _) =>
      eapply yields_ok_try_except_else;
        [apply yields_ok_getitem_eq|exact I|intros ? ?]
  | |- yields_ok _ _ (try_except_else _ _ _ _ ≫= _) =>
      eapply (yields_ok_bind _ (λ _, True)); [|intros ? _]
  | |- value_from _ _ => unfold value_from; simpl; cbv beta in *; eauto 10
  end.

Lemma value_from_interface_record target obj :
  yields_ok (value_from obj) (λ _, True) (interface_record target obj).
Proof. unfold interface_record. repeat from_step. Qed.

Lemma value_from_monitor_record target obj :
  yields_ok (value_from obj) (λ _, True) (monitor_record target obj).
Proof. unfold monitor_record. repeat from_step. Qed.

Lemma value_from_poe_record target obj :
  yields_ok (value_from obj) (λ _, True) (poe_record target obj).
Proof. unfold poe_record. repeat from_step. Qed.

Lemma value_from_copy_keys P keys obj : ∀ labels,
  yields_ok P (λ _, True) (copy_keys keys obj labels).
Proof.
  induction keys as [|k keys IH]; intros labels; simpl; [done|].
  eapply yields_ok_bind; [apply yields_ok_getitem|]. intros v _. apply IH.
Qed.

Lemma value_from_resource_record target obj :
  yields_ok (value_from obj) (λ _, True) (resource_record target obj).
Proof.
  unfold resource_record. repeat from_step.
  eapply yields_ok_bind; [apply value_from_copy_keys|]. intros labels _.
  repeat from_step.
Qed.

Lemma value_from_health_items target obj items :
  (∀ reading, reading ∈ items → reading ∈ obj) →
  yields_ok (value_from obj) (λ _, True) (health_items target items).
Proof.
  induction items as [|[key raw] rest IH]; intros Hin; simpl; [done|].
  eapply (yields_ok_bind _ (λ _, True));
    [|intros _ _; apply IH; intros ??; apply Hin; by right].
  assert ((key, raw) ∈ obj) by (apply Hin; left).
  destruct (py_float raw) as [e|x] eqn:E; simpl.
  - destruct e; simpl; try done. apply yields_ok_yield.
    unfold value_from. cbn [name labels value]. change (made _) with Reading.
    exists key, raw. by rewrite E.
  - apply yields_ok_yield.
    unfold value_from. cbn [name labels value]. change (made _) with Reading.
    exists key, raw. by rewrite E.
Qed.

Lemma value_from_health_record target obj :
  yields_ok (value_from obj) (λ _, True) (health_record target obj).
Proof. by apply value_from_health_items. Qed.

(** *** Runs against a device *)

Lemma yields_on_bind {A B} dev P (g : gen A) (f : A → gen B) :
  yields_on dev P g → (∀ a, yields_on dev P (f a)) → yields_on dev P (g ≫= f).
Proof.
  unfold mbind, gen_bind. intros Hg Hf. induction g; simpl in *; intuition auto.
Qed.

Lemma yields_ok_on {A} dev (P P' : sample → Prop) (Q : A → Prop) (g : gen A) :
  (∀ s, P s → P' s) → yields_ok P Q g → yields_on dev P' g.
Proof. intros HP. induction g; simpl; intuition auto. Qed.

Lemma yields_on_for_records dev (P : record → sample → Prop) res body :
  (∀ obj, yields_ok (P obj) (λ _, True) (body obj)) →
  yields_on dev (λ s, ∃ r : reply, r ∈ res ∧ P r.2 s) (for_records res body).
Proof.
  intros Hb. induction res as [|[[resp tag] obj] rest IH]; simpl; [done|].
  destruct (is_marker resp); [done|]. apply yields_on_bind.
  - eapply yields_ok_on; [|apply Hb]. intros s Hs.
    exists (resp, tag, obj). split; [left|done].
  - intros _. revert IH. clear. generalize (for_records rest body). intros g.
    induction g; simpl; try solve [intuition auto].
    intros [(r & Hr & HP) Hk]. split; [exists r; split; [by right|done]|]. auto.
Qed.

Lemma yields_on_drain {A} dev P (g : gen A) : ∀ st,
  yields_on dev P g → Forall P (drain dev g st).1.1.
Proof.
  induction g as [a|e|s k IH|ip port user psw k IH|w k IH|k IH|k IH];
    simpl; intros st Hg; try (by apply IH); try done.
  - destruct Hg as [Hs Hk]. specialize (IH None st (Hk None)).
    destruct (drain dev (k None) st) as [[l o] st']. by constructor.
  - destruct (unread st); [done|]. by apply IH.
Qed.

Lemma yields_on_pull {A} dev P (g : gen A) : ∀ n st,
  yields_on dev P g → Forall P (pull dev n g st).1.1.
Proof.
  induction g as [a|e|s k IH|ip port user psw k IH|w k IH|k IH|k IH];
    simpl; intros n st Hg; try (by apply IH); try done.
  - destruct Hg as [Hs Hk]. destruct n as [|n].
    + destruct (closing dev _ st). simpl. by repeat constructor.
    + specialize (IH None n st (Hk None)).
      destruct (pull dev n (k None) st) as [[l o] st']. simpl in *.
      by constructor.
  - destruct (unread st); [done|]. by apply IH.
Qed.

Lemma yields_on_battery {B} dev w body (k : unit → gen B) :
  (∀ obj, yields_ok (value_from obj) (λ _, True) (body obj)) →
  (∀ a, yields_on dev (made_from_device dev) (k a)) →
  yields_on dev (made_from_device dev) (for_records (dev w) body ≫= k).
Proof.
  intros Hb Hk. apply yields_on_bind; [|done].
  pose proof (yields_on_for_records dev value_from (dev w) body Hb) as H.
  revert H. generalize (for_records (dev w) body). intros g.
  induction g; simpl; try solve [intuition auto].
  intros [(r & Hr & HP) Hg]. split; [by exists w, r|auto].
Qed.

Lemma scrape_made_from_device cfg dev target :
  yields_on dev (made_from_device dev) (scrape_mikrotik cfg target).
Proof.
  unfold scrape_mikrotik. simpl.
  repeat (intros ?; apply yields_on_battery;
          [first [apply value_from_interface_record
                 |apply value_from_monitor_record
                 |apply value_from_poe_record
                 |apply value_from_resource_record
                 |apply value_from_health_record]
          |intros []; simpl]).
  by unfold close.
Qed.

Lemma run_made_from_device cfg dev target st n s :
  s ∈ (drain dev (scrape_mikrotik cfg target) st).1.1
  ∨ s ∈ (pull dev n (scrape_mikrotik cfg target) st).1.1 →
  made_from_device dev s.
Proof.
  intros [Hs|Hs].
  - pose proof (yields_on_drain dev _ _ st (scrape_made_from_device cfg dev target)) as H.
    by eapply Forall_forall in H.
  - pose proof (yields_on_pull dev _ _ n st (scrape_made_from_device cfg dev target)) as H.
    by eapply Forall_forall in H.
Qed.

(** C7, amended. Every sample of a run, full or cut short by the consumer,
    is rendered by [wrap] as [<prefix><name><labels> <str of its value>],
    and its value is made from a record of the device's answers in the way
    its name tells.  The constant 1 of the status, state and version gauges
    is rendered as [1]; the running gauge's [int(tx-byte)] and the rate
    table's entry are ints and are rendered as integer literals; a field
    yielded as it came is rendered as it came, a text verbatim; and a value
    the source has turned into a float (the output voltage, the output
    current over 1000.0, every health reading that [float] accepts) is never
    rendered as an integer literal, even when it is integral: in a health
    record of text readings, the reading "40" comes out as 40.0. *)
Theorem rendered_value_follows_python_type cfg dev target st :
  (∀ n merged s,
     s ∈ (drain dev (scrape_mikrotik cfg target) st).1.1
     ∨ s ∈ (pull dev n (scrape_mikrotik cfg target) st).1.1 →
     s ∈ merged →
     render cfg (ValueLine s) ∈ wrap cfg merged ∧
     render cfg (ValueLine s)
       = ((PREFIX cfg ++ name s) ++ label_block (labels s) ++ " "
          ++ str (value s))%string ∧
     made_from_device dev s ∧
     match made (name s) with
     | Constant => str (value s) = "1"
     | IntOf _ | RateOf _ => is_int_literal (str (value s)) = true
     | FloatOf _ | MilliOf _ => is_int_literal (str (value s)) = false
     | Reading => is_int_literal (str (value s)) = false ∨ str (value s) = "1"
     | Field _ | AField => ∀ t, value s = VStr t → str (value s) = t
     end) ∧
  (∀ obj key,
     Forall (λ reading : string * Py.value, is_text reading.2) obj →
     (key, VStr "40") ∈ obj →
     ∃ s, s ∈ (drain dev (health_record target obj) st).1.1 ∧
          name s = "system-health-" ++ key ∧
          labels s = [("host", VStr target)] ∧
          str (value s) = "40.0" ∧
          render cfg (ValueLine s)
            = ((PREFIX cfg ++ "system-health-" ++ key)
               ++ label_block [("host", VStr target)] ++ " " ++ "40.0")%string).
Proof.
  split.
  - intros n merged s Hs Hm.
    split; [|split; [done|]].
    { unfold wrap, wrap_lines. apply list_elem_of_fmap_2.
      by apply value_line_in_wrap_from. }
    pose proof (run_made_from_device cfg dev target st n s Hs) as Hfrom.
    split; [done|]. destruct Hfrom as (w & r & _ & Hv). revert Hv.
    unfold value_from. destruct (made (name s)).
    + by intros ->.
    + intros (raw & z & _ & _ & ->). apply str_int_is_int_literal.
    + intros (raw & z & _ & _ & ->). apply str_int_is_int_literal.
    + intros (raw & x & _ & _ & ->). apply str_float_not_int_literal.
    + intros (raw & m & y & _ & _ & _ & ->). apply str_float_not_int_literal.
    + intros (key & raw & _ & _ & Hv). destruct (py_float raw) as [e|x].
      * right. by destruct Hv as [-> _].
      * left. rewrite Hv. apply str_float_not_int_literal.
    + by intros _ t ->.
    + by intros _ t ->.
  - intros obj key Htext Hin.
    exists (health_sample target (key, VStr "40")). split.
    { unfold health_record. rewrite health_items_text by done.
      by apply (list_elem_of_fmap_2 (health_sample target)). }
    assert (health_sample target (key, VStr "40")
            = Sample ("system-health-" ++ key) gauge
                (VFloat (S754_finite false 5629499534213120 (-47)))
                [("host", VStr target)]) as -> by (by vm_compute).
    assert (str (VFloat (S754_finite false 5629499534213120 (-47))) = "40.0")
      as Hstr by (by vm_compute).
    split; [done|]. split; [done|]. split; [done|].
    unfold render. cbn [name labels value]. by rewrite Hstr.
Qed.

Lemma rendered_value_follows_python_type_witness :
  let cfg := Config "mikrotik_" None "admin" "pw" "r1" in
  let s := Sample "system-health-temperature" gauge
             (VFloat (S754_finite false 5629499534213120 (-47)))
             [("host", VStr "r1")] in
  s ∈ (drain warm_device (scrape_mikrotik cfg "r1") fresh).1.1 ∧
  render cfg (ValueLine s) ∈ wrap cfg [s] ∧
  (is_int_literal (str (value s)) = false ∨ str (value s) = "1") ∧
  ∃ s', s' ∈ (drain warm_device
                (health_record "r1" [("temperature", VStr "40")]) fresh).1.1 ∧
        str (value s') = "40.0".
Proof.
  intros cfg s.
  assert (H : s ∈ (drain warm_device (scrape_mikrotik cfg "r1") fresh).1.1)
    by (vm_compute; left).
  split; [exact H|].
  destruct (proj1 (rendered_value_follows_python_type cfg warm_device "r1" fresh)
              0%nat [s] s (or_introl H) (list_elem_of_here s []))
    as (Hline & _ & _ & Htext).
  split; [exact Hline|]. split; [exact Htext|].
  destruct (proj2 (rendered_value_follows_python_type cfg warm_device "r1" fresh)
              [("temperature", VStr "40")] "temperature")
    as (s' & Hs' & _ & _ & Hstr & _).
  - repeat constructor. by eexists.
  - left.
  - by exists s'.
Defined.
